(** * Local Market Analysis dashboard (main.py): data pipeline

    A shallow embedding of the cleaning, filtering and group-by
    pipeline of [main.py], and the properties of its natural-language
    specification.

    Conventions of the embedding.
    - A pandas [Series] is a [list] of cells, a [DataFrame] a list of
      rows ([Sale]); column-wise operations are written column-wise
      (masks built per column, combined with [&], then used to index).
    - A float64 cell is an [fval]: a finite value carried by the exact
      rational it denotes, the two infinities, or NaN, which is also the
      missing-value marker of pandas for float columns.  Rounding and the
      sign of zero are not modelled.
    - [np.sqrt], the parser behind [pd.to_numeric] and the f-string
      formatter are library code: they are parameters of the functions
      that call them. *)

From Stdlib Require Import ZArith QArith Qround List String Ascii Bool Lia Arith.
From Stdlib Require Import Sorted OrderedTypeEx Permutation.
Import ListNotations.

Local Open Scope Q_scope.

(* ================================================================== *)
(** ** Floating-point cells *)
(* ================================================================== *)

Module Np.

Inductive fval : Type :=
  | Fin (q : Q)
  | PInf
  | NInf
  | NaN.

(** [pd.isna] / [Series.notna] on a float cell. *)
Definition isna (x : fval) : bool :=
  match x with NaN => true | _ => false end.

Definition notna (x : fval) : bool := negb (isna x).

Definition isinf (x : fval) : bool :=
  match x with PInf | NInf => true | _ => false end.

Definition of_Z (z : Z) : fval := Fin (inject_Z z).

(** IEEE addition on the extended line. *)
Definition fadd (x y : fval) : fval :=
  match x, y with
  | NaN, _ | _, NaN => NaN
  | Fin a, Fin b => Fin (a + b)
  | PInf, NInf | NInf, PInf => NaN
  | PInf, _ | _, PInf => PInf
  | NInf, _ | _, NInf => NInf
  end.

Definition Qltb (a b : Q) : bool := negb (Qle_bool b a).

(** IEEE division: a finite value over zero is an infinity (or NaN
    for 0/0), and anything over NaN is NaN. *)
Definition fdiv (x y : fval) : fval :=
  match x, y with
  | NaN, _ | _, NaN => NaN
  | Fin a, Fin b =>
      if Qeq_bool b 0 then
        if Qeq_bool a 0 then NaN
        else if Qltb 0 a then PInf else NInf
      else Fin (a / b)
  | Fin _, (PInf | NInf) => Fin 0
  | PInf, Fin b => if Qle_bool 0 b then PInf else NInf
  | NInf, Fin b => if Qle_bool 0 b then NInf else PInf
  | (PInf | NInf), (PInf | NInf) => NaN
  end.

(** [x <= y]; every comparison with NaN is False. *)
Definition fle (x y : fval) : bool :=
  match x, y with
  | NaN, _ | _, NaN => false
  | NInf, _ => true
  | _, PInf => true
  | Fin a, Fin b => Qle_bool a b
  | _, _ => false
  end.

Definition fge (x y : fval) : bool := fle y x.

(** [x == y] on floats. *)
Definition feq (x y : fval) : bool :=
  match x, y with
  | Fin a, Fin b => Qeq_bool a b
  | PInf, PInf | NInf, NInf => true
  | _, _ => false
  end.

(** Truncation toward zero. *)
Definition Qtrunc (q : Q) : Z := Z.quot (Qnum q) (Zpos (Qden q)).

(** Python's [int(x)] on a float: truncation toward zero;
    [OverflowError] on an infinity and [ValueError] on NaN. *)
Definition py_int (x : fval) : option Z :=
  match x with
  | Fin q => Some (Qtrunc q)
  | _ => None
  end.

(** [Series.replace(0, np.nan)] on one cell. *)
Definition replace_zero_nan (x : fval) : fval :=
  if feq x (Fin 0) then NaN else x.

End Np.
Import Np.

(* ================================================================== *)
(** ** Series reductions and frame primitives (pandas) *)
(* ================================================================== *)

Module Pd.

(** [dropna] on a float Series. *)
Definition dropna (s : list fval) : list fval := filter notna s.

(** [Series.sum()] and the group-by ['sum']: NaN cells are skipped and
    the empty sum is 0. *)
Definition sum (s : list fval) : fval :=
  fold_left fadd (dropna s) (Fin 0).

(** ['count']: the number of cells that are not missing. *)
Definition count (s : list fval) : nat := List.length (dropna s).

Definition count_opt {A : Type} (s : list (option A)) : nat :=
  List.length (filter (fun c => match c with Some _ => true | None => false end) s).

(** ['mean']: the sum over the count of the cells that are not
    missing; NaN when there is none. *)
Definition mean (s : list fval) : fval :=
  match count s with
  | O => NaN
  | n => fdiv (sum s) (of_Z (Z.of_nat n))
  end.

(** [Series.min()] / [Series.max()], skipping NaN; NaN on an all-NaN
    or empty Series. *)
Definition fmin2 (x y : fval) : fval := if fle x y then x else y.
Definition fmax2 (x y : fval) : fval := if fle x y then y else x.

Definition min (s : list fval) : fval :=
  match dropna s with
  | [] => NaN
  | x :: t => fold_left fmin2 t x
  end.

Definition max (s : list fval) : fval :=
  match dropna s with
  | [] => NaN
  | x :: t => fold_left fmax2 t x
  end.

(** [m1 & m2] on boolean Series of one index. *)
Fixpoint mask_and (m1 m2 : list bool) : list bool :=
  match m1, m2 with
  | a :: m1', b :: m2' => (a && b) :: mask_and m1' m2'
  | _, _ => []
  end.

(** [df[mask]]: boolean indexing. *)
Fixpoint loc {A : Type} (df : list A) (mask : list bool) : list A :=
  match df, mask with
  | r :: df', b :: mask' => if b then r :: loc df' mask' else loc df' mask'
  | _, _ => []
  end.

(** [df.empty] *)
Definition empty {A : Type} (df : list A) : bool :=
  match df with [] => true | _ => false end.

(** *** group-by

    [df.groupby(key)] with the defaults [sort=True, dropna=True]: rows
    whose key is missing are dropped, groups come in ascending key
    order, and the rows of a group keep the order of the frame. *)
Section GroupBy.
Context {A K : Type}.
Variable key : A -> option K.
Variable eqb ltb : K -> K -> bool.

Fixpoint insert_group (k : K) (r : A) (gs : list (K * list A))
  : list (K * list A) :=
  match gs with
  | [] => [(k, [r])]
  | (k', rs) :: gs' =>
      if eqb k k' then (k', rs ++ [r]) :: gs'
      else if ltb k k' then (k, [r]) :: (k', rs) :: gs'
      else (k', rs) :: insert_group k r gs'
  end.

Definition add_row (gs : list (K * list A)) (r : A) : list (K * list A) :=
  match key r with
  | Some k => insert_group k r gs
  | None => gs
  end.

Definition groupby (df : list A) : list (K * list A) :=
  fold_left add_row df [].

(** The rows of the frame that carry key [k]. *)
Definition rows_of_key (k : K) (df : list A) : list A :=
  filter (fun r => match key r with Some k' => eqb k' k | None => false end) df.
End GroupBy.

(** *** sort_values

    [df.sort_values(col)] as an insertion sort on the column.  The
    default algorithm of pandas is not stable; the order of rows with
    equal cells is therefore not specified by the source, and nothing
    below depends on it. *)
Section SortValues.
Context {A : Type}.
Variable leb : A -> A -> bool.

Fixpoint insert_sorted (x : A) (l : list A) : list A :=
  match l with
  | [] => [x]
  | y :: l' => if leb x y then x :: y :: l' else y :: insert_sorted x l'
  end.

Fixpoint sort_values (l : list A) : list A :=
  match l with
  | [] => []
  | x :: l' => insert_sorted x (sort_values l')
  end.
End SortValues.

End Pd.

(* ================================================================== *)
(** ** Calendar dates and the month key *)
(* ================================================================== *)

Module Date.

(** [datetime.date], as [Series.dt.date] yields it. *)
Record date : Type := mkDate { year : Z; month : Z; day : Z }.

(** Python compares dates as (year, month, day) triples. *)
Definition compare (a b : date) : comparison :=
  match Z.compare (year a) (year b) with
  | Eq => match Z.compare (month a) (month b) with
          | Eq => Z.compare (day a) (day b)
          | c => c
          end
  | c => c
  end.

Definition leb (a b : date) : bool :=
  match compare a b with Gt => false | _ => true end.

(** The (year, month) pair of a date, and its order. *)
Definition ym_compare (a b : date) : comparison :=
  match Z.compare (year a) (year b) with
  | Eq => Z.compare (month a) (month b)
  | c => c
  end.

Definition ym_leb (a b : date) : bool :=
  match ym_compare a b with Gt => false | _ => true end.

(** A date that [pd.to_datetime] parsed is a nanosecond [Timestamp]:
    its year lies in 1677..2262. *)
Definition parsed (d : date) : Prop :=
  (1677 <= year d <= 2262 /\ 1 <= month d <= 12 /\ 1 <= day d <= 31)%Z.

(** The character of the last decimal digit of [n]. *)
Definition digit (n : Z) : ascii := ascii_of_N (Z.to_N (48 + n mod 10)).

(** [%Y]: the year in four decimal digits. *)
Definition fmt_Y (y : Z) : string :=
  String (digit (y / 1000)) (String (digit (y / 100))
    (String (digit (y / 10)) (String (digit y) EmptyString))).

(** [%m]: the month in two decimal digits. *)
Definition fmt_m (m : Z) : string :=
  String (digit (m / 10)) (String (digit m) EmptyString).

(** [strftime('%Y-%m')] *)
Definition strftime_Ym (d : date) : string :=
  (fmt_Y (year d) ++ "-" ++ fmt_m (month d))%string.

End Date.
Import Date.

(* ================================================================== *)
(** ** The sales ledger *)
(* ================================================================== *)

(** A Python value of the ['Bedrooms'] column or of a select box: a
    number, or a string. *)
Inductive pyval : Type :=
| PNum (q : Q)
| PStr (s : string).

(** [a == b] *)
Definition py_eqb (a b : pyval) : bool :=
  match a, b with
  | PNum x, PNum y => Qeq_bool x y
  | PStr x, PStr y => String.eqb x y
  | _, _ => false
  end.

(** Order of the group keys of a column.  A column that [read_csv]
    loaded holds numbers only or strings only; across the two kinds,
    numbers are put first. *)
Definition py_ltb (a b : pyval) : bool :=
  match a, b with
  | PNum x, PNum y => Qltb x y
  | PStr x, PStr y => String.ltb x y
  | PNum _, PStr _ => true
  | PStr _, PNum _ => false
  end.

(** One row of the frame, after [read_csv] and the parsing of lines
    39 and 42.  [None] (and [NaN] in a float column) is a missing cell;
    [year_month] is the column ['Year-Month'], which line 49 adds.
    A project label is a string: line 68 sorts the labels. *)
Record Sale : Type := mkSale {
  unit_id : option string;
  project : string;
  contract_date : option date;
  contract_amount : fval;
  bedrooms : option pyval;
  covered_area : fval;
  covered_veranda : fval;
  total_covered : fval;
  latitude : fval;
  longitude : fval;
  year_month : option string
}.

(** [Series.fillna(0)] on one cell. *)
Definition fillna0 (x : fval) : fval := if isna x then Fin 0 else x.

(** Lines 44-49 on one row. *)
Definition clean (r : Sale) : Sale :=
  {| unit_id := unit_id r;
     project := project r;
     contract_date := contract_date r;
     contract_amount := contract_amount r;
     bedrooms := bedrooms r;
     covered_area := fillna0 (covered_area r);
     covered_veranda := fillna0 (covered_veranda r);
     total_covered := fillna0 (total_covered r);
     latitude := latitude r;
     longitude := longitude r;
     year_month := option_map strftime_Ym (contract_date r) |}.

(** [load_data], lines 44-51. *)
Definition load_data (rows : list Sale) : list Sale := map clean rows.

(* ================================================================== *)
(** ** Sidebar and filter (lines 56-99) *)
(* ================================================================== *)

Definition ALL : string := "All".

(** What the widgets of the sidebar return. *)
Record Selection : Type := mkSelection {
  start_date : date;
  end_date : date;
  selected_project : string;
  selected_bedrooms : pyval;
  price_range : Z * Z
}.

(** Lines 76-83: the bounds and the default value of the price slider.
    [None] when [int] raises (NaN on a frame without amounts, or an
    infinity). *)
Definition min_price (data : list Sale) : option Z :=
  py_int (Pd.min (map contract_amount data)).

Definition max_price (data : list Sale) : option Z :=
  py_int (Pd.max (map contract_amount data)).

Definition default_price_range (data : list Sale) : option (Z * Z) :=
  match min_price data, max_price data with
  | Some lo, Some hi => Some (lo, hi)
  | _, _ => None
  end.

(** The element-wise comparisons of lines 87-90; a missing date (NaT)
    compares False. *)
Definition date_ge (c : option date) (d : date) : bool :=
  match c with Some x => Date.leb d x | None => false end.

Definition date_le (c : option date) (d : date) : bool :=
  match c with Some x => Date.leb x d | None => false end.

Definition bedrooms_eq (c : option pyval) (v : pyval) : bool :=
  match c with Some x => py_eqb x v | None => false end.

(** Lines 86-97. *)
Definition filter_conditions (data : list Sale) (sel : Selection) : list bool :=
  let c :=
    Pd.mask_and
      (Pd.mask_and
         (Pd.mask_and
            (map (fun r => date_ge (contract_date r) (start_date sel)) data)
            (map (fun r => date_le (contract_date r) (end_date sel)) data))
         (map (fun r => fge (contract_amount r) (of_Z (fst (price_range sel)))) data))
      (map (fun r => fle (contract_amount r) (of_Z (snd (price_range sel)))) data) in
  let c :=
    if negb (String.eqb (selected_project sel) ALL)
    then Pd.mask_and c (map (fun r => String.eqb (project r) (selected_project sel)) data)
    else c in
  let c :=
    if negb (py_eqb (selected_bedrooms sel) (PStr ALL))
    then Pd.mask_and c (map (fun r => bedrooms_eq (bedrooms r) (selected_bedrooms sel)) data)
    else c in
  c.

(** Line 99. *)
Definition filtered_data (data : list Sale) (sel : Selection) : list Sale :=
  Pd.loc data (filter_conditions data sel).

(* ================================================================== *)
(** ** What the sidebar offers (lines 60-83) *)
(* ================================================================== *)

(** The dates of a column, without the missing ones. *)
Fixpoint present_dates (s : list (option date)) : list date :=
  match s with
  | [] => []
  | Some d :: s' => d :: present_dates s'
  | None :: s' => present_dates s'
  end.

Definition date_min2 (a b : date) : date := if Date.leb a b then a else b.
Definition date_max2 (a b : date) : date := if Date.leb a b then b else a.

(** Lines 61-62: [data['Contract Date'].min().date()] and its [max]
    twin, which skip NaT; [None] when the column has no date. *)
Definition min_date (data : list Sale) : option date :=
  match present_dates (map contract_date data) with
  | [] => None
  | d :: t => Some (fold_left date_min2 t d)
  end.

Definition max_date (data : list Sale) : option date :=
  match present_dates (map contract_date data) with
  | [] => None
  | d :: t => Some (fold_left date_max2 t d)
  end.

(** [Series.unique()]: the values in the order of their first
    appearance. *)
Definition unique (s : list string) : list string :=
  fold_left
    (fun seen x => if existsb (String.eqb x) seen then seen else seen ++ [x])
    s [].

(** [sorted] on strings. *)
Definition py_sorted (s : list string) : list string :=
  Pd.sort_values String.leb s.

(** Line 68: the options of the project select box. *)
Definition project_options (data : list Sale) : list string :=
  ALL :: py_sorted (unique (map project data)).

(** What the widgets return while the user has touched none of them:
    the whole span of dates (line 64-65), the first option of the two
    select boxes, and the whole price range (line 82).  [None] when a
    bound cannot be computed. *)
Definition default_selection (data : list Sale) : option Selection :=
  match min_date data, max_date data, default_price_range data with
  | Some d0, Some d1, Some prices =>
      Some {| start_date := d0; end_date := d1;
              selected_project := ALL; selected_bedrooms := PStr ALL;
              price_range := prices |}
  | _, _, _ => None
  end.

(* ================================================================== *)
(** ** The three tabs (lines 101-322) *)
(* ================================================================== *)

(** What a section of the page ends up showing: one of the two notices
    ([st.warning], [st.info]) or the charts drawn from a table. *)
Inductive outcome (T : Type) : Type :=
| StWarning (msg : string)
| StInfo (msg : string)
| Charts (table : T).
Arguments StWarning {T} msg.
Arguments StInfo {T} msg.
Arguments Charts {T} table.

Definition NO_DATA : string :=
  "No data available for the selected filters. Please adjust your filter criteria.".
Definition NO_BEDROOM_DATA : string :=
  "No bedroom data available for the selected filters.".
Definition NO_LOCATION_DATA : string :=
  "No location data available for the selected filters.".

(** *** Tab 1: sales timeline *)

(** A row of [monthly_sales]: the columns ['Year-Month'],
    ['Contract Amount'] (sum) and ['Unit ID'] (count). *)
Record MonthRow : Type := mkMonthRow {
  m_year_month : string;
  m_contract_amount : fval;
  m_unit_id : nat
}.

Definition agg_month (g : string * list Sale) : MonthRow :=
  {| m_year_month := fst g;
     m_contract_amount := Pd.sum (map contract_amount (snd g));
     m_unit_id := Pd.count_opt (map unit_id (snd g)) |}.

Definition month_leb (a b : MonthRow) : bool :=
  String.leb (m_year_month a) (m_year_month b).

(** Lines 112-115. *)
Definition monthly_sales (view : list Sale) : list MonthRow :=
  Pd.sort_values month_leb
    (map agg_month (Pd.groupby year_month String.eqb String.ltb view)).

(** Lines 108-115. *)
Definition tab1 (view : list Sale) : outcome (list MonthRow) :=
  if Pd.empty view then StWarning NO_DATA else Charts (monthly_sales view).

(** *** Tab 2: project and bedroom analysis *)

(** A row of [project_sales] or [bedroom_sales], with the column names
    of lines 152 and 214. *)
Record SalesRow (K : Type) : Type := mkSalesRow {
  s_key : K;
  total_sales : fval;
  average_price : fval;
  units_sold : nat;
  average_size : fval;
  price_per_m2 : fval
}.
Arguments mkSalesRow {K}.
Arguments s_key {K}.
Arguments total_sales {K}.
Arguments average_price {K}.
Arguments units_sold {K}.
Arguments average_size {K}.
Arguments price_per_m2 {K}.

(** The aggregation of lines 149-154 (and 211-216) on one group. *)
Definition agg_sales {K : Type} (g : K * list Sale) : SalesRow K :=
  let amounts := map contract_amount (snd g) in
  let avg_price := Pd.mean amounts in
  let avg_size := Pd.mean (map total_covered (snd g)) in
  {| s_key := fst g;
     total_sales := Pd.sum amounts;
     average_price := avg_price;
     units_sold := Pd.count amounts;
     average_size := avg_size;
     price_per_m2 := fdiv avg_price (replace_zero_nan avg_size) |}.

(** [sort_values('Total Sales', ascending=False)]: larger totals first,
    NaN last. *)
Definition total_sales_geb {K : Type} (a b : SalesRow K) : bool :=
  match total_sales a, total_sales b with
  | _, NaN => true
  | NaN, _ => false
  | x, y => fle y x
  end.

Definition project_key (r : Sale) : option string := Some (project r).

(** Lines 149-157. *)
Definition project_sales (view : list Sale) : list (SalesRow string) :=
  Pd.sort_values total_sales_geb
    (map agg_sales (Pd.groupby project_key String.eqb String.ltb view)).

Section ToNumeric.

(** What [pd.to_numeric(..., errors='coerce')] makes of a string cell:
    the number it reads, NaN when it reads none. *)
Variable str_to_numeric : string -> fval.

Definition to_numeric (c : option pyval) : fval :=
  match c with
  | None => NaN
  | Some (PNum q) => Fin q
  | Some (PStr s) => str_to_numeric s
  end.

(** Line 207. *)
Definition bedroom_data (view : list Sale) : list Sale :=
  Pd.loc view (map (fun r => notna (to_numeric (bedrooms r))) view).

(** Lines 211-216, on [bedroom_data]. *)
Definition bedroom_sales (bd : list Sale) : list (SalesRow pyval) :=
  map agg_sales (Pd.groupby bedrooms py_eqb py_ltb bd).

(** Lines 145-243. *)
Definition tab2 (view : list Sale)
  : outcome (list (SalesRow string) * outcome (list (SalesRow pyval))) :=
  if Pd.empty view then StWarning NO_DATA
  else
    let ps := project_sales view in
    let bd := bedroom_data view in
    Charts (ps, if negb (Pd.empty bd) then Charts (bedroom_sales bd)
                else StInfo NO_BEDROOM_DATA).

End ToNumeric.

(** *** Tab 3: location map *)

(** A row of [all_locations].  ['Total Sales (Euro)'] is missing on the
    row of [custom_plot] and ['Price per m²'] on all the others: that is
    what [pd.concat] makes of a column that one side lacks. *)
Record Location : Type := mkLocation {
  l_project : string;
  l_latitude : fval;
  l_longitude : fval;
  l_total_sales : fval;
  l_units_sold : nat;
  l_price_per_m2 : fval;
  l_size : fval;
  l_total_sales_euro : option string
}.

(** Lines 261-273. *)
Definition custom_plot : Location :=
  {| l_project := "Agios Athanasios 419";
     l_latitude := Fin (34707233 # 1000000);
     l_longitude := Fin (33053359 # 1000000);
     l_total_sales := of_Z 0;
     l_units_sold := 0;
     l_price_per_m2 := NaN;
     l_size := of_Z 10;
     l_total_sales_euro := None |}.

(** Line 254: [dropna(subset=['Latitude', 'Longitude'])]. *)
Definition map_data (view : list Sale) : list Sale :=
  filter (fun r => notna (latitude r) && notna (longitude r)) view.

Section Locations.

(** [np.sqrt] and the format [f"{x:,.2f} €"]. *)
Variable np_sqrt : fval -> fval.
Variable fmt_euro : fval -> string.

(** Lines 276-287 on one group.  (Line 258 adds a per-row ['size'] to
    [map_data]; the aggregation does not read it.) *)
Definition agg_location (g : string * list Sale) : Location :=
  let total := Pd.sum (map contract_amount (snd g)) in
  {| l_project := fst g;
     l_latitude := Pd.mean (map latitude (snd g));
     l_longitude := Pd.mean (map longitude (snd g));
     l_total_sales := total;
     l_units_sold := Pd.count (map contract_amount (snd g));
     l_price_per_m2 := NaN;
     l_size := fdiv (np_sqrt total) (of_Z 100);
     l_total_sales_euro := Some (fmt_euro total) |}.

Definition project_locations (md : list Sale) : list Location :=
  map agg_location (Pd.groupby project_key String.eqb String.ltb md).

(** Line 290. *)
Definition all_locations (md : list Sale) : list Location :=
  project_locations md ++ [custom_plot].

(** Lines 249-322. *)
Definition tab3 (view : list Sale) : outcome (list Location) :=
  if Pd.empty view then StWarning NO_DATA
  else
    let md := map_data view in
    if negb (Pd.empty md) then Charts (all_locations md)
    else StInfo NO_LOCATION_DATA.

End Locations.

(* ================================================================== *)
(** ** The filter, as the specification words it *)
(* ================================================================== *)

(** The conjunction of the four predicates of section 4.2 on one
    record; the sentinel ["All"] lifts a constraint. *)
Definition in_date_range (sel : Selection) (r : Sale) : bool :=
  match contract_date r with
  | Some d => Date.leb (start_date sel) d && Date.leb d (end_date sel)
  | None => false
  end.

Definition in_price_range (sel : Selection) (r : Sale) : bool :=
  fle (of_Z (fst (price_range sel))) (contract_amount r)
  && fle (contract_amount r) (of_Z (snd (price_range sel))).

Definition project_matches (sel : Selection) (r : Sale) : bool :=
  if String.eqb (selected_project sel) ALL then true
  else String.eqb (project r) (selected_project sel).

Definition bedrooms_match (sel : Selection) (r : Sale) : bool :=
  if py_eqb (selected_bedrooms sel) (PStr ALL) then true
  else bedrooms_eq (bedrooms r) (selected_bedrooms sel).

Definition satisfies (sel : Selection) (r : Sale) : bool :=
  in_date_range sel r && in_price_range sel r
  && project_matches sel r && bedrooms_match sel r.

(** The same predicates in plain terms, without the comparisons of the
    code: dates ordered as (year, month, day) triples, amounts as
    numbers, Python values equal when they are equal numbers or the
    same string. *)
Definition on_or_before (a b : date) : Prop :=
  (year a < year b
   \/ (year a = year b
       /\ (month a < month b \/ (month a = month b /\ day a <= day b))))%Z.

Definition same_value (a b : pyval) : Prop :=
  match a, b with
  | PNum x, PNum y => x == y
  | PStr x, PStr y => x = y
  | _, _ => False
  end.

Definition keeps (sel : Selection) (r : Sale) : Prop :=
  (exists d, contract_date r = Some d
             /\ on_or_before (start_date sel) d
             /\ on_or_before d (end_date sel))
  /\ (exists q, contract_amount r = Fin q
                /\ inject_Z (fst (price_range sel)) <= q
                /\ q <= inject_Z (snd (price_range sel)))
  /\ (selected_project sel <> ALL -> project r = selected_project sel)
  /\ (selected_bedrooms sel <> PStr ALL ->
      exists v, bedrooms r = Some v /\ same_value v (selected_bedrooms sel)).

(** [x] is at least [y] in the order of [sort_values(ascending=False)]:
    a NaN comes after everything, and otherwise [y <= x] on the extended
    line. *)
Definition at_least (x y : fval) : Prop :=
  match x, y with
  | _, NaN => True
  | NaN, _ => False
  | PInf, _ => True
  | _, NInf => True
  | Fin a, Fin b => b <= a
  | _, _ => False
  end.

(** A row of a sales rollup with another cell in its price column. *)
Definition with_price {K : Type} (f : SalesRow K -> fval) (row : SalesRow K)
  : SalesRow K :=
  {| s_key := s_key row;
     total_sales := total_sales row;
     average_price := average_price row;
     units_sold := units_sold row;
     average_size := average_size row;
     price_per_m2 := f row |}.

(** A selection refines another when its two ranges lie within the
    other's and when it selects the same project (resp. bedrooms),
    unless the other selects all of them. *)
Definition refines (sel' sel : Selection) : Prop :=
  Date.leb (start_date sel) (start_date sel') = true
  /\ Date.leb (end_date sel') (end_date sel) = true
  /\ (fst (price_range sel) <= fst (price_range sel'))%Z
  /\ (snd (price_range sel') <= snd (price_range sel))%Z
  /\ (selected_project sel = ALL
      \/ selected_project sel' = selected_project sel)
  /\ (selected_bedrooms sel = PStr ALL
      \/ selected_bedrooms sel' = selected_bedrooms sel).

(** The number of cells of a column that are not missing, cell by
    cell. *)
Definition present (x : fval) : nat := if notna x then 1 else 0.

(** A value has a fractional part when truncating it changes it. *)
Definition has_fraction (q : Q) : Prop := ~ (inject_Z (Qtrunc q) == q).

(** A group is well formed in a frame when it is labelled with the key
    of one of its rows and all its rows are rows of the frame. *)
Definition well_formed_groups {A K : Type} (key : A -> option K)
  (df : list A) (gs : list (K * list A)) : Prop :=
  forall k rs, In (k, rs) gs ->
    (exists x, In x rs /\ key x = Some k) /\ (forall x, In x rs -> In x df).

(** What [groupby] is to return on a frame: keys in strictly ascending
    order, every group made of the rows of its key and not empty, every
    key of the frame present. *)
Definition groups_of {A K : Type} (key : A -> option K)
  (eqb ltb : K -> K -> bool) (df : list A) (gs : list (K * list A)) : Prop :=
  StronglySorted (fun a b => ltb a b = true) (map fst gs)
  /\ (forall k rs, In (k, rs) gs ->
        rs = Pd.rows_of_key key eqb k df /\ rs <> [])
  /\ (forall x k, In x df -> key x = Some k -> In k (map fst gs)).

(* ================================================================== *)
(** ** Sample frames *)
(* ================================================================== *)

(** A row as [read_csv] and the parsing steps leave it, before
    [load_data] fills the areas and adds ['Year-Month']. *)
Definition sale (id : string) (proj : string) (d : date) (amount : Q)
  (beds : option pyval) (size : fval) : Sale :=
  {| unit_id := Some id; project := proj; contract_date := Some d;
     contract_amount := Fin amount; bedrooms := beds;
     covered_area := size; covered_veranda := NaN; total_covered := size;
     latitude := NaN; longitude := NaN; year_month := None |}.

(** The scenario of section 8: three sales of project "A", two in
    January 2024 and one in February 2024. *)
Definition scenario_rows : list Sale :=
  [ sale "A-101" "A" (mkDate 2024 1 10) 100000 (Some (PNum 2)) (Fin 85);
    sale "A-102" "A" (mkDate 2024 1 24) 200000 (Some (PNum 3)) (Fin 120);
    sale "A-103" "A" (mkDate 2024 2 5) 150000 (Some (PNum 2)) (Fin 90) ].

(** A frame whose ['Bedrooms'] column holds strings; the studio of
    project "B" and the flat of project "C" have no recorded size (the
    loader turns the missing area into 0). *)
Definition studio_row : Sale :=
  sale "B-001" "B" (mkDate 2024 3 2) 90000 (Some (PStr "studio")) NaN.

Definition zero_size_rows : list Sale :=
  [ sale "A-101" "A" (mkDate 2024 1 10) 100000 (Some (PStr "2")) (Fin 85);
    studio_row;
    sale "C-001" "C" (mkDate 2024 3 9) 95000 (Some (PStr "1")) NaN ].

(** A frame whose only row has an empty ['Unit ID'] cell. *)
Definition anonymous_rows : list Sale :=
  [ {| unit_id := None; project := "A";
       contract_date := Some (mkDate 2024 3 2);
       contract_amount := Fin 90000; bedrooms := Some (PNum 2);
       covered_area := Fin 70; covered_veranda := Fin 10;
       total_covered := Fin 80;
       latitude := NaN; longitude := NaN; year_month := None |} ].

(** Two sales whose amounts have cents, and two entries with negative
    amounts. *)
Definition dearest_row : Sale :=
  sale "A-102" "A" (mkDate 2024 1 24) (800003 # 4) (Some (PNum 3)) (Fin 120).

Definition cents_rows : list Sale :=
  [ sale "A-101" "A" (mkDate 2024 1 10) (200001 # 2) (Some (PNum 2)) (Fin 85);
    dearest_row ].

Definition negative_rows : list Sale :=
  [ sale "A-101" "A" (mkDate 2024 1 10) (-3) (Some (PNum 2)) (Fin 85);
    sale "A-102" "A" (mkDate 2024 1 24) (-3 # 2) (Some (PNum 3)) (Fin 120) ].

(** The selection that keeps the year 2024 and constrains neither the
    project nor the bedrooms, with a given price range. *)
Definition year_2024 (prices : Z * Z) : Selection :=
  {| start_date := mkDate 2024 1 1; end_date := mkDate 2024 12 31;
     selected_project := ALL; selected_bedrooms := PStr ALL;
     price_range := prices |}.

(** A reader of unsigned decimal integers, standing for the parser of
    [pd.to_numeric] when the examples are run: NaN on anything else. *)
Fixpoint digits_value (s : string) (acc : Z) : option Z :=
  match s with
  | EmptyString => Some acc
  | String c s' =>
      let n := nat_of_ascii c in
      if (48 <=? n)%nat && (n <=? 57)%nat
      then digits_value s' (10 * acc + Z.of_nat (n - 48))
      else None
  end.

Definition decimal_to_numeric (s : string) : fval :=
  match s with
  | EmptyString => NaN
  | _ => match digits_value s 0 with
         | Some z => of_Z z
         | None => NaN
         end
  end.

(** The same selection, narrowed to project "B". *)
Definition year_2024_project_B (prices : Z * Z) : Selection :=
  {| start_date := mkDate 2024 1 1; end_date := mkDate 2024 12 31;
     selected_project := "B"; selected_bedrooms := PStr ALL;
     price_range := prices |}.

(** January 2024 only, a price range within 0..1000000, whatever the
    project and the bedrooms; and a selection whose dates are crossed. *)
Definition january_2024 : Selection :=
  {| start_date := mkDate 2024 1 1; end_date := mkDate 2024 1 31;
     selected_project := ALL; selected_bedrooms := PStr ALL;
     price_range := (50000, 500000)%Z |}.

Definition crossed_dates : Selection :=
  {| start_date := mkDate 2024 12 31; end_date := mkDate 2024 1 1;
     selected_project := ALL; selected_bedrooms := PStr ALL;
     price_range := (0, 1000000)%Z |}.

(** Stand-ins for [np.sqrt] and for the euro format when the examples
    are run: the integer part of the root, and no text. *)
Definition floor_sqrt (x : fval) : fval :=
  match x with
  | Fin q => if Qltb q 0 then NaN else of_Z (Z.sqrt (Qfloor q))
  | PInf => PInf
  | _ => NaN
  end.

Definition no_format (x : fval) : string := EmptyString.

(** Two sales of project "A" with coordinates, one of project "B"
    without. *)
Definition located_rows : list Sale :=
  [ {| unit_id := Some "A-101"%string; project := "A";
       contract_date := Some (mkDate 2024 1 10);
       contract_amount := Fin 90000; bedrooms := Some (PNum 2);
       covered_area := Fin 70; covered_veranda := Fin 10;
       total_covered := Fin 80;
       latitude := Fin (347 # 10); longitude := Fin (330 # 10);
       year_month := None |};
    {| unit_id := Some "A-102"%string; project := "A";
       contract_date := Some (mkDate 2024 2 11);
       contract_amount := Fin 70000; bedrooms := Some (PNum 1);
       covered_area := Fin 50; covered_veranda := Fin 10;
       total_covered := Fin 60;
       latitude := Fin (349 # 10); longitude := Fin (332 # 10);
       year_month := None |};
    sale "B-001" "B" (mkDate 2024 3 2) 120000 (Some (PNum 3)) (Fin 110) ].

(* ================================================================== *)
(** ** Properties of the frame primitives *)
(* ================================================================== *)

Lemma mask_and_map {A : Type} (f g : A -> bool) (l : list A) :
  Pd.mask_and (map f l) (map g l) = map (fun r => f r && g r) l.
Proof.
  induction l as [|x l IH]; simpl; [reflexivity | now rewrite IH].
Qed.

Lemma loc_map {A : Type} (f : A -> bool) (l : list A) :
  Pd.loc l (map f l) = filter f l.
Proof.
  induction l as [|x l IH]; simpl; [reflexivity|].
  destruct (f x); now rewrite IH.
Qed.

Lemma filter_idem {A : Type} (f : A -> bool) (l : list A) :
  filter f (filter f l) = filter f l.
Proof.
  induction l as [|x l IH]; simpl; [reflexivity|].
  destruct (f x) eqn:E; simpl; [rewrite E|]; now rewrite IH.
Qed.

Lemma empty_nil {A : Type} (l : list A) : Pd.empty l = true <-> l = [].
Proof. destruct l; simpl; split; congruence. Qed.

(** The mask of lines 86-97 is the row-wise conjunction. *)
Lemma filter_conditions_rowwise (data : list Sale) (sel : Selection) :
  filter_conditions data sel = map (satisfies sel) data.
Proof.
  unfold filter_conditions.
  rewrite !mask_and_map.
  destruct (String.eqb (selected_project sel) ALL) eqn:Ep;
    destruct (py_eqb (selected_bedrooms sel) (PStr ALL)) eqn:Eb;
    cbn [negb]; cbv iota; rewrite ?mask_and_map; apply map_ext; intro r;
    unfold satisfies, in_date_range, in_price_range, project_matches,
      bedrooms_match, date_ge, date_le, fge;
    rewrite Ep, Eb; destruct (contract_date r);
    rewrite ?andb_true_r, <- ?andb_assoc; reflexivity.
Qed.

Lemma filtered_data_filter (data : list Sale) (sel : Selection) :
  filtered_data data sel = filter (satisfies sel) data.
Proof.
  unfold filtered_data. rewrite filter_conditions_rowwise. apply loc_map.
Qed.

Lemma py_eqb_PStr_false (v : pyval) (s : string) :
  py_eqb v (PStr s) = false <-> v <> PStr s.
Proof.
  destruct v as [q|t]; simpl.
  - split; [discriminate | reflexivity].
  - rewrite String.eqb_neq. split; intros H; congruence.
Qed.

Lemma satisfies_spec (sel : Selection) (r : Sale) :
  satisfies sel r = true <->
  (exists d, contract_date r = Some d
             /\ Date.leb (start_date sel) d = true
             /\ Date.leb d (end_date sel) = true)
  /\ fle (of_Z (fst (price_range sel))) (contract_amount r) = true
  /\ fle (contract_amount r) (of_Z (snd (price_range sel))) = true
  /\ (selected_project sel <> ALL -> project r = selected_project sel)
  /\ (selected_bedrooms sel <> PStr ALL ->
      bedrooms_eq (bedrooms r) (selected_bedrooms sel) = true).
Proof.
  unfold satisfies, in_date_range, in_price_range, project_matches, bedrooms_match.
  rewrite !andb_true_iff.
  assert (HP : (if String.eqb (selected_project sel) ALL then true
                else String.eqb (project r) (selected_project sel)) = true
               <-> (selected_project sel <> ALL -> project r = selected_project sel)).
  { destruct (String.eqb_spec (selected_project sel) ALL) as [E|N].
    - split; [intros _ H; contradiction | reflexivity].
    - rewrite String.eqb_eq. split; auto. }
  assert (HB : (if py_eqb (selected_bedrooms sel) (PStr ALL) then true
                else bedrooms_eq (bedrooms r) (selected_bedrooms sel)) = true
               <-> (selected_bedrooms sel <> PStr ALL ->
                    bedrooms_eq (bedrooms r) (selected_bedrooms sel) = true)).
  { destruct (py_eqb (selected_bedrooms sel) (PStr ALL)) eqn:E.
    - split; [|reflexivity]. intros _ N. exfalso.
      apply (proj2 (py_eqb_PStr_false _ _)) in N. congruence.
    - apply py_eqb_PStr_false in E. split; auto. }
  rewrite HP, HB. clear HP HB.
  destruct (contract_date r) as [d|].
  - rewrite andb_true_iff. split.
    + intros [[[[H1 H2] [H3 H4]] H5] H6]. repeat split; eauto.
    + intros [[d' [E [H1 H2]]] [H3 [H4 [H5 H6]]]]. inversion E; subst d'.
      repeat split; assumption.
  - split.
    + intros [[[H _] _] _]. discriminate.
    + intros [[d' [E _]] _]. discriminate.
Qed.

(* ================================================================== *)
(** ** Filter engine *)
(* ================================================================== *)

Lemma date_leb_iff (a b : date) : Date.leb a b = true <-> on_or_before a b.
Proof.
  destruct a as [y1 m1 d1], b as [y2 m2 d2].
  unfold Date.leb, Date.compare, on_or_before. simpl.
  destruct (Z.compare_spec y1 y2); [|split; [lia|reflexivity]|split; [discriminate|lia]].
  destruct (Z.compare_spec m1 m2); [|split; [lia|reflexivity]|split; [discriminate|lia]].
  destruct (Z.compare_spec d1 d2); split; try lia; try reflexivity; discriminate.
Qed.

Lemma py_eqb_iff (a b : pyval) : py_eqb a b = true <-> same_value a b.
Proof.
  destruct a, b; simpl.
  - apply Qeq_bool_iff.
  - split; [discriminate|tauto].
  - split; [discriminate|tauto].
  - apply String.eqb_eq.
Qed.

Lemma bedrooms_eq_iff (c : option pyval) (v : pyval) :
  bedrooms_eq c v = true <-> exists x, c = Some x /\ same_value x v.
Proof.
  destruct c as [x|]; simpl.
  - rewrite py_eqb_iff. split.
    + intros H. exists x. auto.
    + intros [x' [E H]]. now injection E as <-.
  - split; [discriminate|]. intros [x' [E _]]. discriminate.
Qed.

Lemma in_range_iff (lo hi : Z) (x : fval) :
  fle (of_Z lo) x = true /\ fle x (of_Z hi) = true <->
  exists q, x = Fin q /\ inject_Z lo <= q /\ q <= inject_Z hi.
Proof.
  unfold of_Z. destruct x as [q| | |]; simpl.
  - rewrite !Qle_bool_iff. split.
    + intros [H1 H2]. exists q. auto.
    + intros [q' [E [H1 H2]]]. injection E as <-. auto.
  - split; [intros [_ H]; discriminate | intros [q [E _]]; discriminate].
  - split; [intros [H _]; discriminate | intros [q [E _]]; discriminate].
  - split; [intros [H _]; discriminate | intros [q [E _]]; discriminate].
Qed.

Lemma satisfies_keeps (sel : Selection) (r : Sale) :
  satisfies sel r = true <-> keeps sel r.
Proof.
  rewrite satisfies_spec. unfold keeps.
  rewrite <- (in_range_iff (fst (price_range sel)) (snd (price_range sel))).
  split.
  - intros ([d (Hd & H1 & H2)] & H3 & H4 & H5 & H6).
    split; [|split; [tauto|split; [exact H5|]]].
    + exists d. rewrite <- !date_leb_iff. auto.
    + intros N. apply bedrooms_eq_iff. auto.
  - intros ([d (Hd & H1 & H2)] & [H3 H4] & H5 & H6).
    split; [|split; [exact H3|split; [exact H4|split; [exact H5|]]]].
    + exists d. rewrite !date_leb_iff. auto.
    + intros N. apply bedrooms_eq_iff. auto.
Qed.

(** C1.  The filtered view is exactly the sub-frame, in the order of the
    frame, of the records on which every predicate holds: the contract
    date is on or after the start date and on or before the end date,
    the contract amount is a number between the two bounds of the price
    range inclusive, the project is the selected one unless the
    selection is ["All"], and the bedrooms cell is present and equal to
    the selected value (the same number, or the same string) unless the
    selection is ["All"].  A record with a missing date, a missing
    amount or, under a bedrooms selection, a missing bedrooms cell is
    left out. *)
Theorem filter_is_conjunction (data : list Sale) (sel : Selection) :
  filtered_data data sel = filter (satisfies sel) data
  /\ (forall r : Sale,
        satisfies sel r = true <->
        (exists d, contract_date r = Some d
                   /\ on_or_before (start_date sel) d
                   /\ on_or_before d (end_date sel))
        /\ (exists q, contract_amount r = Fin q
                      /\ inject_Z (fst (price_range sel)) <= q
                      /\ q <= inject_Z (snd (price_range sel)))
        /\ (selected_project sel <> ALL -> project r = selected_project sel)
        /\ (selected_bedrooms sel <> PStr ALL ->
            exists v, bedrooms r = Some v
                      /\ same_value v (selected_bedrooms sel)))
  /\ forall r : Sale,
      In r (filtered_data data sel) <-> In r data /\ keeps sel r.
Proof.
  split; [apply filtered_data_filter|]. split.
  - intro r. apply satisfies_keeps.
  - intro r. rewrite filtered_data_filter, filter_In, satisfies_keeps. tauto.
Qed.

(** C9.  Filtering the filtered view again, with the same selection,
    changes nothing. *)
Theorem filter_idempotent (data : list Sale) (sel : Selection) :
  filtered_data (filtered_data data sel) sel = filtered_data data sel.
Proof.
  rewrite !filtered_data_filter. apply filter_idem.
Qed.

(* ================================================================== *)
(** ** Group-by and sort_values *)
(* ================================================================== *)

Section SortValuesFacts.
Context {A : Type}.
Variable leb : A -> A -> bool.

Lemma insert_sorted_In (x y : A) (l : list A) :
  In y (Pd.insert_sorted leb x l) <-> y = x \/ In y l.
Proof.
  induction l as [|z l IH]; simpl.
  - intuition congruence.
  - destruct (leb x z); simpl; [|rewrite IH]; intuition congruence.
Qed.

Lemma sort_values_In (y : A) (l : list A) :
  In y (Pd.sort_values leb l) <-> In y l.
Proof.
  induction l as [|x l IH]; simpl; [tauto|].
  rewrite insert_sorted_In, IH. intuition congruence.
Qed.

(** Sorting a frame that is in order already gives it back. *)
Lemma sort_values_sorted (l : list A) :
  StronglySorted (fun a b => leb a b = true) l -> Pd.sort_values leb l = l.
Proof.
  induction 1 as [|x l Hs IH Hx]; simpl; [reflexivity|].
  rewrite IH. destruct l as [|y l']; simpl; [reflexivity|].
  inversion Hx as [|? ? Hxy _]; subst. now rewrite Hxy.
Qed.

End SortValuesFacts.

Lemma insert_sorted_map {A B : Type} (f : A -> B) (leb1 : A -> A -> bool)
      (leb2 : B -> B -> bool) (x : A) (l : list A) :
  (forall b, In b l -> leb2 (f x) (f b) = leb1 x b) ->
  Pd.insert_sorted leb2 (f x) (map f l) = map f (Pd.insert_sorted leb1 x l).
Proof.
  induction l as [|y l IH]; simpl; intros H; [reflexivity|].
  rewrite (H y) by auto. destruct (leb1 x y); simpl; [reflexivity|].
  rewrite IH; auto.
Qed.

Lemma sort_values_map {A B : Type} (f : A -> B) (leb1 : A -> A -> bool)
      (leb2 : B -> B -> bool) (l : list A) :
  (forall a b, In a l -> In b l -> leb2 (f a) (f b) = leb1 a b) ->
  Pd.sort_values leb2 (map f l) = map f (Pd.sort_values leb1 l).
Proof.
  induction l as [|x l IH]; simpl; intros H; [reflexivity|].
  rewrite IH by auto. apply insert_sorted_map.
  intros b Hb. apply sort_values_In in Hb. auto.
Qed.

Section GroupByMembers.
Context {A K : Type}.
Variable key : A -> option K.
Variable eqb ltb : K -> K -> bool.

Lemma insert_group_In (k : K) (r : A) (gs : list (K * list A)) (k' : K) (rs' : list A) :
  In (k', rs') (Pd.insert_group eqb ltb k r gs) ->
  (k' = k /\ rs' = [r])
  \/ exists rs, In (k', rs) gs /\ (rs' = rs \/ rs' = rs ++ [r]).
Proof.
  induction gs as [|[k1 rs1] gs IH]; simpl.
  - intros [E|[]]. inversion E; auto.
  - destruct (eqb k k1).
    + intros [E|H].
      * inversion E; subst. right. exists rs1. auto.
      * right. exists rs'. auto.
    + destruct (ltb k k1).
      * intros [E|[E|H]].
        -- inversion E; auto.
        -- inversion E; subst. right. exists rs'. auto.
        -- right. exists rs'. auto.
      * intros [E|H].
        -- inversion E; subst. right. exists rs'. auto.
        -- destruct (IH H) as [?|[rs [Hin Hrs]]]; [auto|].
           right. exists rs. auto.
Qed.

Lemma add_row_well_formed (df : list A) (gs : list (K * list A)) (r : A) :
  well_formed_groups key df gs ->
  well_formed_groups key (df ++ [r]) (Pd.add_row key eqb ltb gs r).
Proof.
  intros W k rs Hin. unfold Pd.add_row in Hin.
  assert (Hold : forall rs0, In (k, rs0) gs ->
            (exists x, In x rs0 /\ key x = Some k)
            /\ (forall x, In x rs0 -> In x (df ++ [r]))).
  { intros rs0 H0. destruct (W _ _ H0) as [He Hs]. split; [exact He|].
    intros x Hx. apply in_or_app. left. auto. }
  destruct (key r) as [kr|] eqn:Ek; [|auto].
  apply insert_group_In in Hin.
  destruct Hin as [[-> ->]|[rs0 [H0 [->| ->]]]].
  - split.
    + exists r. simpl. auto.
    + intros x [<-|[]]. apply in_or_app. right. simpl. auto.
  - auto.
  - destruct (Hold _ H0) as [[x [Hx Hk]] Hs]. split.
    + exists x. split; [apply in_or_app; auto | exact Hk].
    + intros y Hy. apply in_app_or in Hy. destruct Hy as [Hy|[<-|[]]].
      * auto.
      * apply in_or_app. right. simpl. auto.
Qed.

Lemma groupby_snoc (df : list A) (r : A) :
  Pd.groupby key eqb ltb (df ++ [r])
  = Pd.add_row key eqb ltb (Pd.groupby key eqb ltb df) r.
Proof. unfold Pd.groupby. now rewrite fold_left_app. Qed.

Lemma groupby_well_formed (df : list A) :
  well_formed_groups key df (Pd.groupby key eqb ltb df).
Proof.
  induction df as [|r df IH] using rev_ind.
  - intros k rs [].
  - rewrite groupby_snoc. now apply add_row_well_formed.
Qed.

End GroupByMembers.

Section RowsOfKey.
Context {A K : Type}.
Variable key : A -> option K.
Variable eqb : K -> K -> bool.
Hypothesis eqb_eq : forall a b, eqb a b = true <-> a = b.

Lemma rows_of_key_snoc (k : K) (df : list A) (r : A) :
  Pd.rows_of_key key eqb k (df ++ [r])
  = Pd.rows_of_key key eqb k df
    ++ (if match key r with Some k' => eqb k' k | None => false end
        then [r] else []).
Proof.
  unfold Pd.rows_of_key. rewrite filter_app. simpl.
  now destruct (match key r with Some k' => eqb k' k | None => false end).
Qed.

Lemma rows_of_key_nil (k : K) (df : list A) :
  (forall x, In x df -> key x <> Some k) -> Pd.rows_of_key key eqb k df = [].
Proof.
  induction df as [|x df IH]; simpl; intros H; [reflexivity|].
  destruct (key x) as [kx|] eqn:Ex.
  - destruct (eqb kx k) eqn:E.
    + apply eqb_eq in E. subst. exfalso. apply (H x); auto.
    + apply IH. intros y Hy. apply H. auto.
  - apply IH. intros y Hy. apply H. auto.
Qed.

Lemma rows_of_key_In (k : K) (df : list A) (x : A) :
  In x (Pd.rows_of_key key eqb k df) <-> In x df /\ key x = Some k.
Proof.
  unfold Pd.rows_of_key. rewrite filter_In.
  destruct (key x) as [kx|]; [rewrite eqb_eq|]; intuition congruence.
Qed.

End RowsOfKey.

Section GroupByOrdered.
Context {A K : Type}.
Variable key : A -> option K.
Variable eqb ltb : K -> K -> bool.

Hypothesis eqb_eq : forall a b, eqb a b = true <-> a = b.
Hypothesis ltb_irrefl : forall a, ltb a a = false.
Hypothesis ltb_trans :
  forall a b c, ltb a b = true -> ltb b c = true -> ltb a c = true.
Hypothesis ltb_total :
  forall a b, eqb a b = false -> ltb a b = false -> ltb b a = true.

Lemma eqb_refl_K (a : K) : eqb a a = true.
Proof. now apply eqb_eq. Qed.

Lemma lt_neq (a b : K) : ltb a b = true -> a <> b.
Proof. intros H ->. rewrite ltb_irrefl in H. discriminate. Qed.

Lemma insert_group_keys (k : K) (r : A) (gs : list (K * list A)) (k' : K) :
  In k' (map fst (Pd.insert_group eqb ltb k r gs)) <-> k' = k \/ In k' (map fst gs).
Proof.
  induction gs as [|[k1 rs1] gs IH]; simpl.
  - intuition congruence.
  - destruct (eqb k k1) eqn:E; simpl.
    + apply eqb_eq in E. subst. intuition congruence.
    + destruct (ltb k k1); simpl; [|rewrite IH]; intuition congruence.
Qed.

Lemma insert_group_sorted (k : K) (r : A) (gs : list (K * list A)) :
  StronglySorted (fun a b => ltb a b = true) (map fst gs) ->
  StronglySorted (fun a b => ltb a b = true) (map fst (Pd.insert_group eqb ltb k r gs)).
Proof.
  induction gs as [|[k1 rs1] gs IH]; simpl; intros S.
  - constructor; constructor.
  - inversion S as [|? ? S' F]; subst.
    destruct (eqb k k1) eqn:E; simpl.
    + constructor; assumption.
    + destruct (ltb k k1) eqn:L; simpl.
      * constructor; [exact S|]. constructor; [exact L|].
        eapply Forall_impl; [|exact F]. intros c Hc. eapply ltb_trans; eauto.
      * constructor; [auto|].
        apply Forall_forall. intros c Hc.
        apply (insert_group_keys k r gs c) in Hc. destruct Hc as [->|Hc].
        -- apply ltb_total; assumption.
        -- rewrite Forall_forall in F. auto.
Qed.

(** Where the groups of [insert_group] come from, on sorted keys. *)
Lemma insert_group_sorted_In (k : K) (r : A) (gs : list (K * list A))
      (k' : K) (rs' : list A) :
  StronglySorted (fun a b => ltb a b = true) (map fst gs) ->
  In (k', rs') (Pd.insert_group eqb ltb k r gs) ->
  (k' <> k /\ In (k', rs') gs)
  \/ (k' = k /\ exists rs, In (k, rs) gs /\ rs' = rs ++ [r])
  \/ (k' = k /\ ~ In k (map fst gs) /\ rs' = [r]).
Proof.
  induction gs as [|[k1 rs1] gs IH]; simpl; intros S.
  - intros [E|[]]. injection E as <- <-. right. right. auto.
  - inversion S as [|? ? S' F]; subst. rewrite Forall_forall in F.
    assert (Hfst : forall rs0 k0, In (k0, rs0) gs -> ltb k1 k0 = true).
    { intros rs0 k0 H0. apply F. change k0 with (fst (k0, rs0)). now apply in_map. }
    destruct (eqb k k1) eqn:E.
    + apply eqb_eq in E. subst k1. intros [E1|H].
      * injection E1 as <- <-. right. left. split; [reflexivity|].
        exists rs1. auto.
      * left. split; [|auto]. apply not_eq_sym, lt_neq. eauto.
    + destruct (ltb k k1) eqn:L.
      * intros [E0|H].
        -- injection E0 as <- <-. right. right. repeat split.
           intros [E1|Hin].
           ++ subst. rewrite ltb_irrefl in L. discriminate.
           ++ apply F in Hin. apply (lt_neq k k); [|reflexivity].
              eapply ltb_trans; eauto.
        -- left. split; [|exact H]. destruct H as [E1|H].
           ++ injection E1 as <- <-. apply not_eq_sym, lt_neq. exact L.
           ++ apply not_eq_sym, lt_neq. eapply ltb_trans; [exact L|].
              exact (Hfst _ _ H).
      * assert (N : k1 <> k).
        { intros ->. now rewrite eqb_refl_K in E. }
        intros [E1|H].
        -- injection E1 as <- <-. left. auto.
        -- destruct (IH S' H) as [[Hn Hin]|[[-> [rs [Hin ->]]]|[-> [Hn ->]]]].
           ++ left. auto.
           ++ right. left. split; [reflexivity|]. exists rs. auto.
           ++ right. right. repeat split. intros [E1|Hin]; [auto|auto].
Qed.

Lemma add_row_groups_of (df : list A) (gs : list (K * list A)) (r : A) :
  groups_of key eqb ltb df gs ->
  groups_of key eqb ltb (df ++ [r]) (Pd.add_row key eqb ltb gs r).
Proof.
  intros (S & M & C). unfold Pd.add_row.
  destruct (key r) as [kr|] eqn:Ek.
  - split; [now apply insert_group_sorted|]. split.
    + intros k rs Hin. rewrite rows_of_key_snoc, Ek.
      apply insert_group_sorted_In in Hin; [|exact S].
      destruct Hin as [[Hn Hin]|[[-> [rs0 [Hin ->]]]|[-> [Hn ->]]]].
      * destruct (M _ _ Hin) as [-> Hne].
        destruct (eqb kr k) eqn:E.
        { apply eqb_eq in E. congruence. }
        rewrite app_nil_r. auto.
      * destruct (M _ _ Hin) as [-> Hne]. rewrite eqb_refl_K.
        split; [reflexivity|]. intros H. now apply app_eq_nil in H as [_ H].
      * rewrite eqb_refl_K. rewrite (rows_of_key_nil key eqb eqb_eq); [split; [reflexivity|discriminate]|].
        intros x Hx Hk. apply Hn. eapply C; eauto.
    + intros x k Hx Hk. apply insert_group_keys.
      apply in_app_or in Hx. destruct Hx as [Hx|[<-|[]]].
      * right. eapply C; eauto.
      * left. congruence.
  - split; [exact S|]. split.
    + intros k rs Hin. rewrite rows_of_key_snoc, Ek, app_nil_r. auto.
    + intros x k Hx Hk. apply in_app_or in Hx. destruct Hx as [Hx|[<-|[]]].
      * eapply C; eauto.
      * congruence.
Qed.

Lemma groupby_groups_of (df : list A) :
  groups_of key eqb ltb df (Pd.groupby key eqb ltb df).
Proof.
  induction df as [|r df IH] using rev_ind.
  - split; [constructor|]. split; [intros k rs []|intros x k []].
  - rewrite groupby_snoc. now apply add_row_groups_of.
Qed.

End GroupByOrdered.

(* ================================================================== *)
(** ** String keys *)
(* ================================================================== *)

Lemma string_ltb_lt (a b : string) :
  String.ltb a b = true <-> String_as_OT.lt a b.
Proof.
  unfold String.ltb. rewrite <- String_as_OT.cmp_lt. unfold String_as_OT.cmp.
  destruct (String.compare a b); split; congruence.
Qed.

Lemma string_ltb_irrefl (a : string) : String.ltb a a = false.
Proof.
  destruct (String.ltb a a) eqn:E; [|reflexivity].
  apply string_ltb_lt in E. apply String_as_OT.lt_not_eq in E.
  exfalso. apply E. reflexivity.
Qed.

Lemma string_ltb_trans (a b c : string) :
  String.ltb a b = true -> String.ltb b c = true -> String.ltb a c = true.
Proof.
  rewrite !string_ltb_lt. apply String_as_OT.lt_trans.
Qed.

Lemma string_ltb_total (a b : string) :
  String.eqb a b = false -> String.ltb a b = false -> String.ltb b a = true.
Proof.
  unfold String.ltb. rewrite (String.compare_antisym b a), String.eqb_neq.
  destruct (String.compare a b) eqn:E; simpl; try congruence.
  apply String.compare_eq_iff in E. congruence.
Qed.

Lemma string_ltb_leb (a b : string) :
  String.ltb a b = true -> String.leb a b = true.
Proof.
  unfold String.ltb, String.leb. destruct (String.compare a b); congruence.
Qed.

(** [groupby] on a column of strings. *)
Lemma groupby_string {A : Type} (key : A -> option string) (df : list A) :
  groups_of key String.eqb String.ltb df
    (Pd.groupby key String.eqb String.ltb df).
Proof.
  apply groupby_groups_of.
  - apply String.eqb_eq.
  - apply string_ltb_irrefl.
  - apply string_ltb_trans.
  - apply string_ltb_total.
Qed.

Lemma StronglySorted_map {A B : Type} (f : A -> B) (R : B -> B -> Prop)
      (l : list A) :
  StronglySorted R (map f l) <-> StronglySorted (fun a b => R (f a) (f b)) l.
Proof.
  induction l as [|x l IH]; simpl.
  - split; constructor.
  - split; intros S; inversion S as [|? ? S' F]; subst; constructor;
      try (now apply IH); rewrite Forall_forall in *.
    + intros y Hy. apply F. now apply in_map.
    + intros y Hy. apply in_map_iff in Hy as [z [<- Hz]]. auto.
Qed.

Lemma StronglySorted_impl {A : Type} (R R' : A -> A -> Prop) (l : list A) :
  (forall a b, R a b -> R' a b) -> StronglySorted R l -> StronglySorted R' l.
Proof.
  intros H. induction 1 as [|x l S IH F]; constructor; [exact IH|].
  eapply Forall_impl; [|exact F]. intros; auto.
Qed.

(* ================================================================== *)
(** ** Time-bucket rollup *)
(* ================================================================== *)

(** The group-by leaves the buckets in key order, so that line 115 has
    nothing to move. *)
Lemma monthly_sales_groupby (view : list Sale) :
  monthly_sales view
  = map agg_month (Pd.groupby year_month String.eqb String.ltb view).
Proof.
  unfold monthly_sales. apply sort_values_sorted.
  destruct (groupby_string year_month view) as (S & _ & _).
  apply StronglySorted_map in S.
  apply (StronglySorted_map agg_month (fun a b => month_leb a b = true)).
  eapply StronglySorted_impl; [|exact S].
  intros [k1 rs1] [k2 rs2]. unfold month_leb. simpl. apply string_ltb_leb.
Qed.


Lemma monthly_sales_row (view : list Sale) (row : MonthRow) :
  In row (monthly_sales view) ->
  let bucket := Pd.rows_of_key year_month String.eqb (m_year_month row) view in
  bucket <> []
  /\ m_contract_amount row = Pd.sum (map contract_amount bucket)
  /\ m_unit_id row = Pd.count_opt (map unit_id bucket).
Proof.
  rewrite monthly_sales_groupby, in_map_iff. intros [[k rs] [<- Hin]].
  destruct (groupby_string year_month view) as (_ & M & _).
  destruct (M _ _ Hin) as [-> Hne]. simpl. auto.
Qed.



(* ================================================================== *)
(** ** Project and bedroom rollups *)
(* ================================================================== *)

Lemma fdiv_nan_r (x : fval) : fdiv x NaN = NaN.
Proof. now destruct x. Qed.

(** The guard of lines 153 and 215 on one aggregated row. *)
Lemma agg_sales_zero_size {K : Type} (g : K * list Sale) :
  feq (average_size (agg_sales g)) (Fin 0) = true ->
  price_per_m2 (agg_sales g) = NaN.
Proof.
  unfold agg_sales, replace_zero_nan. simpl. intros ->. apply fdiv_nan_r.
Qed.

Lemma project_sales_In (view : list Sale) (row : SalesRow string) :
  In row (project_sales view) <->
  exists g, In g (Pd.groupby project_key String.eqb String.ltb view)
            /\ row = agg_sales g.
Proof.
  unfold project_sales. rewrite sort_values_In, in_map_iff.
  split; intros [g [H1 H2]]; exists g; auto.
Qed.

Lemma bedroom_sales_In (bd : list Sale) (row : SalesRow pyval) :
  In row (bedroom_sales bd) <->
  exists g, In g (Pd.groupby bedrooms py_eqb py_ltb bd) /\ row = agg_sales g.
Proof.
  unfold bedroom_sales. rewrite in_map_iff.
  split; intros [g [H1 H2]]; exists g; auto.
Qed.

Lemma with_price_geb {K : Type} (f : SalesRow K -> fval) (a b : SalesRow K) :
  total_sales_geb (with_price f a) (with_price f b) = total_sales_geb a b.
Proof. reflexivity. Qed.

(** C3.  In the project rollup and in the bedroom rollup, the cells of
    a row are the sum, the mean and the count of the contract amounts
    and the mean of ['Total Covered'] over the records of its group;
    when that mean size is zero, the price per square metre of the row
    is the missing value (NaN, for which [isna] holds): it is computed
    without error and it is not an infinity.  The missing value goes no
    further: the only operation that follows the division, the sort of
    line 157, returns the same rows in the same order whatever the
    price column holds, and the bedroom table is drawn as aggregated. *)
Theorem price_per_area_missing_when_size_zero
        (str_to_numeric : string -> fval) (view : list Sale) :
  (forall row, In row (project_sales view) ->
      (exists members,
          In (s_key row, members)
             (Pd.groupby project_key String.eqb String.ltb view)
          /\ average_size row = Pd.mean (map total_covered members)
          /\ total_sales row = Pd.sum (map contract_amount members)
          /\ average_price row = Pd.mean (map contract_amount members)
          /\ units_sold row = Pd.count (map contract_amount members))
      /\ (feq (average_size row) (Fin 0) = true ->
          price_per_m2 row = NaN
          /\ isna (price_per_m2 row) = true
          /\ isinf (price_per_m2 row) = false))
  /\ (forall row,
         In row (bedroom_sales (bedroom_data str_to_numeric view)) ->
         (exists members,
             In (s_key row, members)
                (Pd.groupby bedrooms py_eqb py_ltb
                   (bedroom_data str_to_numeric view))
             /\ average_size row = Pd.mean (map total_covered members)
             /\ total_sales row = Pd.sum (map contract_amount members)
             /\ average_price row = Pd.mean (map contract_amount members)
             /\ units_sold row = Pd.count (map contract_amount members))
         /\ (feq (average_size row) (Fin 0) = true ->
             price_per_m2 row = NaN
             /\ isna (price_per_m2 row) = true
             /\ isinf (price_per_m2 row) = false))
  /\ (forall f : SalesRow string -> fval,
         map (with_price f) (project_sales view)
         = Pd.sort_values total_sales_geb
             (map (fun g => with_price f (agg_sales g))
                (Pd.groupby project_key String.eqb String.ltb view)))
  /\ (forall f : SalesRow pyval -> fval,
         map (with_price f) (bedroom_sales (bedroom_data str_to_numeric view))
         = map (fun g => with_price f (agg_sales g))
             (Pd.groupby bedrooms py_eqb py_ltb
                (bedroom_data str_to_numeric view))).
Proof.
  split; [|split; [|split]].
  - intros row Hin.
    apply project_sales_In in Hin as [[k members] [Hg ->]]. split.
    + exists members. simpl. auto.
    + intros Hz. rewrite (agg_sales_zero_size _ Hz). auto.
  - intros row Hin.
    apply bedroom_sales_In in Hin as [[k members] [Hg ->]]. split.
    + exists members. simpl. auto.
    + intros Hz. rewrite (agg_sales_zero_size _ Hz). auto.
  - intros f. unfold project_sales.
    rewrite <- (map_map agg_sales (with_price f)). symmetry.
    apply sort_values_map. intros a b _ _. apply with_price_geb.
  - intros f. unfold bedroom_sales. apply map_map.
Qed.

(** A record of the frame is in the group of its key. *)
Lemma groupby_string_member {A : Type} (key : A -> option string)
      (df : list A) (x : A) (k : string) :
  In x df -> key x = Some k ->
  In (k, Pd.rows_of_key key String.eqb k df)
     (Pd.groupby key String.eqb String.ltb df)
  /\ In x (Pd.rows_of_key key String.eqb k df).
Proof.
  intros Hx Hk. destruct (groupby_string key df) as (_ & M & C).
  specialize (C _ _ Hx Hk). apply in_map_iff in C as [[k' rs] [E Hin]].
  simpl in E. subst k'. destruct (M _ _ Hin) as [-> _]. split; [exact Hin|].
  apply (rows_of_key_In key String.eqb String.eqb_eq). auto.
Qed.

Lemma bedroom_data_filter (str_to_numeric : string -> fval) (view : list Sale) :
  bedroom_data str_to_numeric view
  = filter (fun r => notna (to_numeric str_to_numeric (bedrooms r))) view.
Proof. apply loc_map. Qed.

(** A record of the filtered view of a loaded frame has a date, and its
    month key is the one of that date. *)
Lemma filtered_loaded_year_month (rows : list Sale) (sel : Selection) (r : Sale) :
  In r (filtered_data (load_data rows) sel) ->
  exists d, contract_date r = Some d /\ year_month r = Some (strftime_Ym d).
Proof.
  rewrite filtered_data_filter, filter_In. intros [Hin Hs].
  apply satisfies_spec in Hs as [[d [Hd _]] _].
  unfold load_data in Hin. apply in_map_iff in Hin as [r0 [<- _]].
  simpl in *. exists d. rewrite Hd. auto.
Qed.

(** C7.  A record of the filtered view whose ['Bedrooms'] cell does not
    read as a number is not among the rows that the bedroom rollup
    groups, while it is a member of the group of its project in the
    project rollup and of the bucket of its month in the time-bucket
    rollup, both of which have a row for that group. *)
Theorem non_numeric_bedrooms_only_leave_bedroom_rollup
        (str_to_numeric : string -> fval) (rows : list Sale)
        (sel : Selection) (r : Sale) :
  let view := filtered_data (load_data rows) sel in
  In r view ->
  isna (to_numeric str_to_numeric (bedrooms r)) = true ->
  ~ In r (bedroom_data str_to_numeric view)
  /\ (exists members,
         In (project r, members)
            (Pd.groupby project_key String.eqb String.ltb view)
         /\ In r members
         /\ In (agg_sales (project r, members)) (project_sales view))
  /\ (exists k members,
         year_month r = Some k
         /\ In (k, members) (Pd.groupby year_month String.eqb String.ltb view)
         /\ In r members
         /\ In (agg_month (k, members)) (monthly_sales view)).
Proof.
  intros view Hin Hna. split; [|split].
  - rewrite bedroom_data_filter, filter_In. intros [_ H].
    unfold notna in H. rewrite Hna in H. discriminate.
  - destruct (groupby_string_member project_key view r (project r) Hin eq_refl)
      as [Hg Hm].
    eexists. split; [exact Hg|]. split; [exact Hm|].
    apply project_sales_In. eexists. split; [exact Hg|reflexivity].
  - destruct (filtered_loaded_year_month _ _ _ Hin) as [d [_ Hk]].
    destruct (groupby_string_member year_month view r _ Hin Hk) as [Hg Hm].
    do 2 eexists. split; [exact Hk|]. split; [exact Hg|]. split; [exact Hm|].
    rewrite monthly_sales_groupby. apply in_map. exact Hg.
Qed.

(* ================================================================== *)
(** ** Counts and observed keys *)
(* ================================================================== *)

Lemma count_pos (s : list fval) :
  (exists v, In v s /\ notna v = true) -> (1 <= Pd.count s)%nat.
Proof.
  intros [v [Hin Hv]]. unfold Pd.count, Pd.dropna.
  assert (H : In v (filter notna s)) by (apply filter_In; auto).
  destruct (filter notna s); [contradiction | simpl; lia].
Qed.

Lemma count_opt_pos {A : Type} (s : list (option A)) :
  (1 <= Pd.count_opt s)%nat <-> exists a, In (Some a) s.
Proof.
  unfold Pd.count_opt. induction s as [|[a|] s IH]; simpl.
  - split; [lia | intros [a []]].
  - split; [intros _; eauto | lia].
  - rewrite IH. split; intros [a H]; exists a; [auto | destruct H; [discriminate|auto]].
Qed.

Lemma filtered_amount_notna (data : list Sale) (sel : Selection) (r : Sale) :
  In r (filtered_data data sel) -> notna (contract_amount r) = true.
Proof.
  rewrite filtered_data_filter, filter_In. intros [_ Hs].
  apply satisfies_spec in Hs as (_ & Hlo & _).
  destruct (contract_amount r); try reflexivity.
  unfold of_Z in Hlo. simpl in Hlo. discriminate.
Qed.

(** A group cut out of rows whose amounts are all present counts at
    least one unit, and carries the key of one of these rows. *)
Lemma group_units_observed {K : Type} (key : Sale -> option K)
      (eqb ltb : K -> K -> bool) (df : list Sale) (k : K) (rs : list Sale) :
  (forall x, In x df -> notna (contract_amount x) = true) ->
  In (k, rs) (Pd.groupby key eqb ltb df) ->
  (1 <= Pd.count (map contract_amount rs))%nat
  /\ exists r, In r df /\ key r = Some k.
Proof.
  intros Hna Hin.
  destruct (groupby_well_formed key eqb ltb df k rs Hin) as [[x [Hx Hk]] Hs].
  split.
  - apply count_pos. exists (contract_amount x). split; [now apply in_map | auto].
  - exists x. auto.
Qed.

Lemma map_data_incl (view : list Sale) (r : Sale) :
  In r (map_data view) -> In r view.
Proof. unfold map_data. rewrite filter_In. tauto. Qed.

Lemma bedroom_data_incl (str_to_numeric : string -> fval)
      (view : list Sale) (r : Sale) :
  In r (bedroom_data str_to_numeric view) -> In r view.
Proof. rewrite bedroom_data_filter, filter_In. tauto. Qed.

(** C10 (as the code has it).  Over a filtered view, every row of the
    four rollups carries the key of a record of the view; the unit count
    of a project group, of a bedroom group and of a geographic group is
    at least 1; the unit count of a time bucket counts the records of
    the bucket that have a unit id, so that it is at least 1 exactly
    when the bucket has such a record. *)
Theorem rollup_groups_are_observed
        (str_to_numeric : string -> fval) (np_sqrt : fval -> fval)
        (fmt_euro : fval -> string) (data : list Sale) (sel : Selection) :
  let view := filtered_data data sel in
  (forall row, In row (monthly_sales view) ->
      (exists r, In r view /\ year_month r = Some (m_year_month row))
      /\ ((1 <= m_unit_id row)%nat <->
          exists r, In r view /\ year_month r = Some (m_year_month row)
                    /\ unit_id r <> None))
  /\ (forall row, In row (project_sales view) ->
         (1 <= units_sold row)%nat
         /\ exists r, In r view /\ project r = s_key row)
  /\ (forall row, In row (bedroom_sales (bedroom_data str_to_numeric view)) ->
         (1 <= units_sold row)%nat
         /\ exists r, In r view /\ bedrooms r = Some (s_key row))
  /\ (forall row,
         In row (project_locations np_sqrt fmt_euro (map_data view)) ->
         (1 <= l_units_sold row)%nat
         /\ exists r, In r view /\ project r = l_project row).
Proof.
  intros view.
  assert (Hna : forall x, In x view -> notna (contract_amount x) = true).
  { intros x. apply filtered_amount_notna. }
  split; [|split; [|split]].
  - intros row Hin.
    destruct (monthly_sales_row _ _ Hin) as (Hne & _ & Hcount).
    pose proof (rows_of_key_In year_month String.eqb String.eqb_eq
                  (m_year_month row) view) as HIn.
    split.
    + destruct (Pd.rows_of_key year_month String.eqb (m_year_month row) view)
        as [|x rs] eqn:E; [congruence|].
      exists x. apply HIn. simpl. auto.
    + rewrite Hcount, count_opt_pos. split.
      * intros [a Ha]. apply in_map_iff in Ha as [r [Hu Hr]].
        apply HIn in Hr as [Hr Hk]. exists r. repeat split; auto. congruence.
      * intros [r (Hr & Hk & Hu)]. destruct (unit_id r) as [a|] eqn:Eu; [|congruence].
        exists a. rewrite <- Eu. apply in_map. apply HIn. auto.
  - intros row Hin. apply project_sales_In in Hin as [[k rs] [Hg ->]]. simpl.
    destruct (group_units_observed _ _ _ _ _ _ Hna Hg) as [Hc [r [Hr Hk]]].
    split; [exact Hc|]. exists r. split; [exact Hr|].
    unfold project_key in Hk. congruence.
  - intros row Hin. apply bedroom_sales_In in Hin as [[k rs] [Hg ->]]. simpl.
    assert (Hna' : forall x, In x (bedroom_data str_to_numeric view) ->
                             notna (contract_amount x) = true).
    { intros x Hx. apply Hna. eapply bedroom_data_incl; eauto. }
    destruct (group_units_observed _ _ _ _ _ _ Hna' Hg) as [Hc [r [Hr Hk]]].
    split; [exact Hc|]. exists r. split; [|exact Hk].
    eapply bedroom_data_incl; eauto.
  - intros row Hin. unfold project_locations in Hin.
    apply in_map_iff in Hin as [[k rs] [<- Hg]]. simpl.
    assert (Hna' : forall x, In x (map_data view) ->
                             notna (contract_amount x) = true).
    { intros x Hx. apply Hna. now apply map_data_incl. }
    destruct (group_units_observed _ _ _ _ _ _ Hna' Hg) as [Hc [r [Hr Hk]]].
    split; [exact Hc|]. exists r. split; [now apply map_data_incl|].
    unfold project_key in Hk. congruence.
Qed.

(** C10, as stated, fails on a frame whose only row has no unit id: its
    month is a bucket of the time-bucket rollup, with a unit count
    of 0. *)
Lemma time_bucket_count_can_be_zero :
  ~ (forall row,
        In row (monthly_sales
                  (filtered_data (load_data anonymous_rows)
                     (year_2024 (0, 100000)%Z))) ->
        (1 <= m_unit_id row)%nat).
Proof.
  intros H.
  specialize (H {| m_year_month := "2024-03"; m_contract_amount := Fin 90000;
                   m_unit_id := 0 |}).
  simpl in H. assert (C : (1 <= 0)%nat); [|lia].
  apply H. vm_compute. left. reflexivity.
Qed.

(* ================================================================== *)
(** ** Geographic rollup *)
(* ================================================================== *)

Lemma map_data_In (view : list Sale) (r : Sale) :
  In r (map_data view) <->
  In r view /\ isna (latitude r) = false /\ isna (longitude r) = false.
Proof.
  unfold map_data, notna. rewrite filter_In, andb_true_iff, !negb_true_iff.
  tauto.
Qed.





(* ================================================================== *)
(** ** Empty views *)
(* ================================================================== *)

Lemma filter_none {A : Type} (f : A -> bool) (l : list A) :
  (forall x, In x l -> f x = false) -> filter f l = [].
Proof.
  induction l as [|x l IH]; simpl; intros H; [reflexivity|].
  rewrite (H x) by auto. apply IH. auto.
Qed.

Lemma unmatched_project_empty_view (data : list Sale) (sel : Selection) :
  selected_project sel <> ALL ->
  (forall r, In r data -> project r <> selected_project sel) ->
  filtered_data data sel = [].
Proof.
  intros Hsel Hnone. rewrite filtered_data_filter. apply filter_none.
  intros r Hr. destruct (satisfies sel r) eqn:E; [|reflexivity].
  apply satisfies_spec in E as (_ & _ & _ & Hp & _).
  exfalso. apply (Hnone r Hr). auto.
Qed.

Lemma filter_nil_iff {A : Type} (f : A -> bool) (l : list A) :
  filter f l = [] <-> forall x, In x l -> f x = false.
Proof.
  split; [|apply filter_none].
  intros E x Hx. destruct (f x) eqn:Ef; [|reflexivity]. exfalso.
  assert (H : In x (filter f l)) by (apply filter_In; auto).
  rewrite E in H. contradiction.
Qed.

(** C6 (as the code has it).  The view is empty exactly when no record
    of the frame passes all the predicates of the filter, as when the
    selected project is carried by no row.  On every empty view no
    rollup table is built and nothing fails: each of the three tabs
    shows the notice of line 109.  Evaluated on that view all the same,
    the group-bys of the time-bucket, project, bedroom and geographic
    rollups are empty tables, and the table of the map holds the
    reference point alone. *)
Theorem empty_view_shows_notice
        (str_to_numeric : string -> fval) (np_sqrt : fval -> fval)
        (fmt_euro : fval -> string) (data : list Sale) (sel : Selection) :
  (filtered_data data sel = [] <-> forall r, In r data -> ~ keeps sel r)
  /\ (selected_project sel <> ALL ->
      (forall r, In r data -> project r <> selected_project sel) ->
      filtered_data data sel = [])
  /\ (filtered_data data sel = [] ->
      let view := filtered_data data sel in
      tab1 view = StWarning NO_DATA
      /\ tab2 str_to_numeric view = StWarning NO_DATA
      /\ tab3 np_sqrt fmt_euro view = StWarning NO_DATA
      /\ monthly_sales view = []
      /\ project_sales view = []
      /\ bedroom_sales (bedroom_data str_to_numeric view) = []
      /\ project_locations np_sqrt fmt_euro (map_data view) = []
      /\ all_locations np_sqrt fmt_euro (map_data view) = [custom_plot]).
Proof.
  split; [|split].
  - rewrite filtered_data_filter, filter_nil_iff.
    split; intros H r Hr.
    + rewrite <- satisfies_keeps, (H r Hr). discriminate.
    + destruct (satisfies sel r) eqn:E; [|reflexivity].
      apply satisfies_keeps in E. now apply H in E.
  - apply unmatched_project_empty_view.
  - intros E. rewrite E. repeat split; reflexivity.
Qed.

(** C6, as stated, fails on the empty view: what a tab yields there is
    the notice, not a table without rows, and the table that lines
    276-290 build from no row is not empty. *)
Lemma empty_view_yields_no_empty_table :
  tab1 [] <> Charts []
  /\ tab3 floor_sqrt no_format [] <> Charts []
  /\ all_locations floor_sqrt no_format (map_data []) <> [].
Proof.
  repeat split; vm_compute; discriminate.
Qed.

(* ================================================================== *)
(** ** Default price range *)
(* ================================================================== *)

Lemma Qtrunc_le (q : Q) : 0 <= q -> inject_Z (Qtrunc q) <= q.
Proof.
  intros H. destruct q as [n d]. unfold Qtrunc. simpl.
  assert (Hn : (0 <= n)%Z).
  { unfold Qle in H. simpl in H. lia. }
  rewrite Z.quot_div_nonneg by lia.
  apply (Qfloor_le (n # d)).
Qed.

Lemma default_price_range_bounds (data : list Sale) (lo hi : Z) :
  default_price_range data = Some (lo, hi) ->
  py_int (Pd.min (map contract_amount data)) = Some lo
  /\ py_int (Pd.max (map contract_amount data)) = Some hi.
Proof.
  unfold default_price_range, min_price, max_price.
  destruct (py_int (Pd.min (map contract_amount data)));
    destruct (py_int (Pd.max (map contract_amount data)));
    intros H; inversion H; auto.
Qed.

(** C5 (as the code has it).  The bounds of the default price range are
    the truncations of the minimum and of the maximum contract amount.
    When the maximum is positive and has a fractional part, a record
    that holds it is not in the view filtered with the default range. *)
Theorem default_price_range_drops_fractional_maximum
        (data : list Sale) (sel : Selection) (lo hi : Z) (m : Q) (r : Sale) :
  default_price_range data = Some (lo, hi) ->
  price_range sel = (lo, hi) ->
  Pd.max (map contract_amount data) = Fin m ->
  0 < m ->
  has_fraction m ->
  In r data ->
  feq (contract_amount r) (Fin m) = true ->
  py_int (Pd.min (map contract_amount data)) = Some lo
  /\ py_int (Pd.max (map contract_amount data)) = Some hi
  /\ ~ In r (filtered_data data sel).
Proof.
  intros Hd Hp Hmax Hpos Hfrac Hin Heq.
  destruct (default_price_range_bounds _ _ _ Hd) as [Hlo Hhi].
  split; [exact Hlo|]. split; [exact Hhi|].
  rewrite Hmax in Hhi. simpl in Hhi. injection Hhi as Hhi.
  rewrite filtered_data_filter, filter_In. intros [_ Hs].
  apply satisfies_spec in Hs as (_ & _ & Hle & _).
  rewrite Hp in Hle. simpl in Hle.
  destruct (contract_amount r) as [a| | |]; simpl in Heq, Hle; try discriminate.
  apply Qeq_bool_iff in Heq. apply Qle_bool_iff in Hle.
  apply Hfrac. rewrite Hhi. apply Qle_antisym.
  - rewrite <- Hhi. apply Qtrunc_le. now apply Qlt_le_weak.
  - rewrite <- Heq. exact Hle.
Qed.

(** C5, as stated, fails when the maximum is negative: truncation moves
    it up, and the record that holds it passes the upper bound. *)
Lemma negative_fractional_maximum_is_kept :
  default_price_range (load_data negative_rows) = Some (-3, -1)%Z
  /\ Pd.max (map contract_amount (load_data negative_rows)) = Fin (-3 # 2)
  /\ has_fraction (-3 # 2)
  /\ exists r,
      In r (filtered_data (load_data negative_rows) (year_2024 (-3, -1)%Z))
      /\ contract_amount r = Fin (-3 # 2).
Proof.
  split; [reflexivity|]. split; [reflexivity|]. split.
  - unfold has_fraction. vm_compute. discriminate.
  - eexists. split; [vm_compute; right; left; reflexivity | reflexivity].
Qed.

(* ================================================================== *)
(** ** Month keys *)
(* ================================================================== *)

Lemma digit_compare (a b : Z) :
  (0 <= a < 10)%Z -> (0 <= b < 10)%Z ->
  Ascii.compare (ascii_of_N (Z.to_N (48 + a))) (ascii_of_N (Z.to_N (48 + b)))
  = Z.compare a b.
Proof.
  intros Ha Hb.
  assert (Ea : (a = 0 \/ a = 1 \/ a = 2 \/ a = 3 \/ a = 4 \/ a = 5 \/ a = 6
                \/ a = 7 \/ a = 8 \/ a = 9)%Z) by lia.
  assert (Eb : (b = 0 \/ b = 1 \/ b = 2 \/ b = 3 \/ b = 4 \/ b = 5 \/ b = 6
                \/ b = 7 \/ b = 8 \/ b = 9)%Z) by lia.
  repeat (destruct Ea as [->|Ea]); try subst a;
    repeat (destruct Eb as [->|Eb]); try subst b; reflexivity.
Qed.

Lemma digit_char_compare (x y : Z) :
  Ascii.compare (digit x) (digit y) = Z.compare (x mod 10) (y mod 10).
Proof.
  unfold digit. apply digit_compare; apply Z.mod_pos_bound; lia.
Qed.

(** The keys of two dates of at most four-digit years and two-digit
    months compare as the (year, month) pairs do. *)
Lemma strftime_Ym_compare (d1 d2 : date) :
  (0 <= year d1 < 10000)%Z -> (0 <= year d2 < 10000)%Z ->
  (0 <= month d1 < 100)%Z -> (0 <= month d2 < 100)%Z ->
  String.compare (strftime_Ym d1) (strftime_Ym d2) = ym_compare d1 d2.
Proof.
  intros Hy1 Hy2 Hm1 Hm2. unfold strftime_Ym, fmt_Y, fmt_m, ym_compare.
  cbn [String.append String.compare]. rewrite !digit_char_compare.
  change (Ascii.compare "-" "-") with Eq. cbv iota.
  repeat match goal with
         | |- context [Z.compare ?x ?y] => destruct (Z.compare_spec x y)
         end;
    try reflexivity; exfalso; Z.to_euclidean_division_equations; lia.
Qed.

Lemma parsed_bounds (d : date) :
  parsed d -> (0 <= year d < 10000)%Z /\ (0 <= month d < 100)%Z.
Proof. unfold parsed. lia. Qed.

(** C8.  The month keys of two parsed contract dates compare, as
    strings, as the (year, month) pairs of the dates do; hence sorting
    the keys of a list of parsed dates as strings gives the keys in the
    order in which sorting by (year, month) puts the dates.  The key of
    a loaded record is the key of its contract date. *)
Theorem year_month_keys_order_as_dates :
  (forall d1 d2 : date,
      parsed d1 -> parsed d2 ->
      String.compare (strftime_Ym d1) (strftime_Ym d2) = ym_compare d1 d2)
  /\ (forall ds : list date,
         Forall parsed ds ->
         Pd.sort_values String.leb (map strftime_Ym ds)
         = map strftime_Ym (Pd.sort_values ym_leb ds))
  /\ (forall (r : Sale) (d : date),
         contract_date r = Some d ->
         year_month (clean r) = Some (strftime_Ym d)).
Proof.
  assert (C : forall d1 d2, parsed d1 -> parsed d2 ->
              String.compare (strftime_Ym d1) (strftime_Ym d2) = ym_compare d1 d2).
  { intros d1 d2 H1 H2.
    apply parsed_bounds in H1 as [? ?], H2 as [? ?].
    now apply strftime_Ym_compare. }
  split; [exact C|]. split.
  - intros ds Hds. rewrite Forall_forall in Hds. apply sort_values_map.
    intros a b Ha Hb. unfold String.leb, ym_leb. now rewrite C by auto.
  - intros r d H. simpl. now rewrite H.
Qed.

(* ================================================================== *)
(** ** The properties at work on the sample frames *)
(* ================================================================== *)

(** The studio of project "B" in the frame [zero_size_rows]: its project
    row has an average size of 0 and a missing price per square metre,
    and so has the bedroom row of the one-bedroom flat. *)
Lemma price_per_area_missing_witness :
  (exists row,
      In row (project_sales (load_data zero_size_rows))
      /\ s_key row = "B"%string
      /\ feq (average_size row) (Fin 0) = true
      /\ isna (price_per_m2 row) = true
      /\ isinf (price_per_m2 row) = false)
  /\ (exists row,
         In row (bedroom_sales
                   (bedroom_data decimal_to_numeric (load_data zero_size_rows)))
         /\ s_key row = PStr "1"
         /\ feq (average_size row) (Fin 0) = true
         /\ isna (price_per_m2 row) = true
         /\ isinf (price_per_m2 row) = false).
Proof.
  pose proof (price_per_area_missing_when_size_zero decimal_to_numeric
                (load_data zero_size_rows)) as (HP & HB & _).
  split.
  - exists (agg_sales ("B"%string, [clean studio_row])).
    assert (Hin : In (agg_sales ("B"%string, [clean studio_row]))
                     (project_sales (load_data zero_size_rows))).
    { vm_compute. right. right. left. reflexivity. }
    split; [exact Hin|]. split; [reflexivity|]. split; [reflexivity|].
    apply (proj2 (HP _ Hin)). reflexivity.
  - exists (agg_sales (PStr "1", [clean (sale "C-001" "C" (mkDate 2024 3 9) 95000
                                           (Some (PStr "1")) NaN)])).
    match goal with |- In ?r ?l /\ _ => assert (Hin : In r l) end.
    { vm_compute. left. reflexivity. }
    split; [exact Hin|]. split; [reflexivity|]. split; [reflexivity|].
    apply (proj2 (HB _ Hin)). reflexivity.
Defined.

(** The studio is not among the rows of the bedroom rollup, and it is
    in the group of project "B" and in the bucket of March 2024. *)
Lemma non_numeric_bedrooms_witness :
  In (clean studio_row)
     (filtered_data (load_data zero_size_rows) (year_2024 (0, 1000000)%Z))
  /\ isna (to_numeric decimal_to_numeric (bedrooms (clean studio_row))) = true
  /\ ~ In (clean studio_row)
          (bedroom_data decimal_to_numeric
             (filtered_data (load_data zero_size_rows)
                (year_2024 (0, 1000000)%Z))).
Proof.
  assert (Hin : In (clean studio_row)
                   (filtered_data (load_data zero_size_rows)
                      (year_2024 (0, 1000000)%Z))).
  { vm_compute. right. left. reflexivity. }
  assert (Hna : isna (to_numeric decimal_to_numeric
                        (bedrooms (clean studio_row))) = true)
    by reflexivity.
  split; [exact Hin|]. split; [exact Hna|].
  exact (proj1 (non_numeric_bedrooms_only_leave_bedroom_rollup
                  decimal_to_numeric zero_size_rows
                  (year_2024 (0, 1000000)%Z) (clean studio_row) Hin Hna)).
Defined.

(** The frame [located_rows]: project "A" is a group of the map, with
    two units. *)
Lemma rollup_groups_witness :
  exists row,
    In row (project_locations floor_sqrt no_format
              (map_data (filtered_data (load_data located_rows)
                           (year_2024 (0, 1000000)%Z))))
    /\ l_project row = "A"%string
    /\ (1 <= l_units_sold row)%nat.
Proof.
  pose proof (rollup_groups_are_observed decimal_to_numeric floor_sqrt
                no_format (load_data located_rows)
                (year_2024 (0, 1000000)%Z)) as (_ & _ & _ & HL).
  eexists.
  match goal with |- In ?r ?l /\ _ => assert (Hin : In r l) end.
  { vm_compute. left. reflexivity. }
  split; [exact Hin|]. split; [reflexivity|].
  exact (proj1 (HL _ Hin)).
Defined.


(** No row of the scenario frame is of project "B", and none costs at
    most 1 euro: either selection gives an empty view and the notice. *)
Lemma empty_view_witness :
  filtered_data (load_data scenario_rows) (year_2024_project_B (0, 1000000)%Z)
  = []
  /\ tab1 (filtered_data (load_data scenario_rows)
             (year_2024_project_B (0, 1000000)%Z))
     = StWarning NO_DATA
  /\ filtered_data (load_data scenario_rows) (year_2024 (0, 1)%Z) = []
  /\ tab3 floor_sqrt no_format
       (filtered_data (load_data scenario_rows) (year_2024 (0, 1)%Z))
     = StWarning NO_DATA.
Proof.
  assert (Hsel : selected_project (year_2024_project_B (0, 1000000)%Z) <> ALL).
  { vm_compute. discriminate. }
  assert (Hnone : forall r, In r (load_data scenario_rows) ->
                    project r <> selected_project
                                   (year_2024_project_B (0, 1000000)%Z)).
  { intros r Hr. simpl in Hr.
    destruct Hr as [<-|[<-|[<-|[]]]]; vm_compute; discriminate. }
  pose proof (empty_view_shows_notice decimal_to_numeric floor_sqrt no_format
                (load_data scenario_rows)
                (year_2024_project_B (0, 1000000)%Z))
    as (_ & HB & NB).
  pose proof (empty_view_shows_notice decimal_to_numeric floor_sqrt no_format
                (load_data scenario_rows) (year_2024 (0, 1)%Z))
    as (_ & _ & NP).
  assert (EB : filtered_data (load_data scenario_rows)
                 (year_2024_project_B (0, 1000000)%Z) = [])
    by exact (HB Hsel Hnone).
  assert (EP : filtered_data (load_data scenario_rows) (year_2024 (0, 1)%Z)
               = []) by reflexivity.
  split; [exact EB|]. split; [exact (proj1 (NB EB))|].
  split; [exact EP|]. exact (proj1 (proj2 (proj2 (NP EP)))).
Defined.

(** On [cents_rows] the default range is 100000..200000, and the sale at
    200000.75 is filtered out. *)
Lemma default_price_range_witness :
  default_price_range (load_data cents_rows) = Some (100000, 200000)%Z
  /\ ~ In (clean dearest_row)
          (filtered_data (load_data cents_rows)
             (year_2024 (100000, 200000)%Z)).
Proof.
  assert (Hd : default_price_range (load_data cents_rows)
               = Some (100000, 200000)%Z) by reflexivity.
  split; [exact Hd|].
  assert (Hfrac : has_fraction (800003 # 4)).
  { unfold has_fraction. intros H. vm_compute in H. discriminate. }
  assert (Hin : In (clean dearest_row) (load_data cents_rows)).
  { simpl. right. left. reflexivity. }
  exact (proj2 (proj2
    (default_price_range_drops_fractional_maximum
       (load_data cents_rows) (year_2024 (100000, 200000)%Z)
       100000 200000 (800003 # 4) (clean dearest_row)
       Hd eq_refl eq_refl eq_refl Hfrac Hin eq_refl))).
Defined.

(** December 2023 comes before January 2024, as a key and as a pair. *)
Lemma year_month_keys_witness :
  parsed (mkDate 2023 12 31) /\ parsed (mkDate 2024 1 1)
  /\ String.compare (strftime_Ym (mkDate 2023 12 31))
                    (strftime_Ym (mkDate 2024 1 1)) = Lt
  /\ ym_compare (mkDate 2023 12 31) (mkDate 2024 1 1) = Lt.
Proof.
  assert (H1 : parsed (mkDate 2023 12 31)) by (unfold parsed; simpl; lia).
  assert (H2 : parsed (mkDate 2024 1 1)) by (unfold parsed; simpl; lia).
  split; [exact H1|]. split; [exact H2|]. split; [|reflexivity].
  rewrite (proj1 year_month_keys_order_as_dates _ _ H1 H2). reflexivity.
Defined.

(* ================================================================== *)
(** ** Orders on dates and on cells *)
(* ================================================================== *)

Lemma date_compare_eq (a b : date) : Date.compare a b = Eq -> a = b.
Proof.
  destruct a as [y1 m1 d1], b as [y2 m2 d2]. unfold Date.compare. simpl.
  destruct (Z.compare_spec y1 y2); try discriminate.
  destruct (Z.compare_spec m1 m2); try discriminate.
  destruct (Z.compare_spec d1 d2); try discriminate.
  intros _. congruence.
Qed.

Lemma date_leb_refl (a : date) : Date.leb a a = true.
Proof.
  unfold Date.leb, Date.compare. now rewrite !Z.compare_refl.
Qed.

Lemma date_leb_trans (a b c : date) :
  Date.leb a b = true -> Date.leb b c = true -> Date.leb a c = true.
Proof.
  destruct a as [y1 m1 d1], b as [y2 m2 d2], c as [y3 m3 d3].
  unfold Date.leb, Date.compare. simpl.
  repeat match goal with
         | |- context [Z.compare ?x ?y] => destruct (Z.compare_spec x y)
         end; try reflexivity; try discriminate; intros _ _; exfalso; lia.
Qed.

Lemma date_leb_total (a b : date) :
  Date.leb a b = false -> Date.leb b a = true.
Proof.
  destruct a as [y1 m1 d1], b as [y2 m2 d2].
  unfold Date.leb, Date.compare. simpl.
  repeat match goal with
         | |- context [Z.compare ?x ?y] => destruct (Z.compare_spec x y)
         end; try reflexivity; try discriminate; intros _; exfalso; lia.
Qed.

Lemma fle_trans (x y z : fval) :
  fle x y = true -> fle y z = true -> fle x z = true.
Proof.
  destruct x, y, z; simpl; try congruence.
  rewrite !Qle_bool_iff. apply Qle_trans.
Qed.

Lemma fle_total (x y : fval) :
  notna x = true -> notna y = true -> fle x y = false -> fle y x = true.
Proof.
  destruct x, y; simpl; intros H1 H2 H; try reflexivity; try discriminate.
  apply Qle_bool_iff. destruct (Qlt_le_dec q0 q) as [L|L].
  - now apply Qlt_le_weak.
  - apply Qle_bool_iff in L. congruence.
Qed.

Lemma fle_refl (x : fval) : notna x = true -> fle x x = true.
Proof.
  destruct x; simpl; intros H; try reflexivity; try discriminate.
  apply Qle_bool_iff, Qle_refl.
Qed.

Lemma fle_of_Z (a b : Z) : (a <= b)%Z -> fle (of_Z a) (of_Z b) = true.
Proof.
  intros H. unfold of_Z. simpl. apply Qle_bool_iff. now rewrite <- Zle_Qle.
Qed.

(** Truncation is the floor of a value that is not negative and the
    ceiling of one that is. *)
Lemma Qtrunc_nonneg (q : Q) : 0 <= q -> Qtrunc q = Qfloor q.
Proof.
  destruct q as [n d]. unfold Qtrunc, Qle. simpl. intros H.
  apply Z.quot_div_nonneg; lia.
Qed.

Lemma Qtrunc_neg (q : Q) : q <= 0 -> Qtrunc q = Qceiling q.
Proof.
  destruct q as [n d]. unfold Qtrunc, Qceiling, Qle. simpl. intros H.
  rewrite <- (Z.opp_involutive n) at 1. rewrite Z.quot_opp_l by lia.
  rewrite Z.quot_div_nonneg by lia. reflexivity.
Qed.

Lemma Qtrunc_mono (a b : Q) : a <= b -> (Qtrunc a <= Qtrunc b)%Z.
Proof.
  intros H. destruct (Qlt_le_dec a 0) as [Ha|Ha]; destruct (Qlt_le_dec b 0) as [Hb|Hb].
  - rewrite !Qtrunc_neg by now apply Qlt_le_weak. now apply Qceiling_resp_le.
  - rewrite (Qtrunc_neg a) by now apply Qlt_le_weak. rewrite (Qtrunc_nonneg b) by assumption.
    apply Z.le_trans with 0%Z.
    + change 0%Z with (Qceiling 0). apply Qceiling_resp_le. now apply Qlt_le_weak.
    + change 0%Z with (Qfloor 0). now apply Qfloor_resp_le.
  - exfalso. apply (Qlt_irrefl 0). eapply Qle_lt_trans; [exact Ha|].
    eapply Qle_lt_trans; eassumption.
  - rewrite !Qtrunc_nonneg by assumption. now apply Qfloor_resp_le.
Qed.

Lemma Qtrunc_inject_Z (z : Z) : Qtrunc (inject_Z z) = z.
Proof. unfold Qtrunc. simpl. apply Z.quot_1_r. Qed.

Lemma Qtrunc_eq (a b : Q) : a == b -> Qtrunc a = Qtrunc b.
Proof.
  intros H. apply Z.le_antisymm; apply Qtrunc_mono; rewrite H; apply Qle_refl.
Qed.

(* ================================================================== *)
(** ** Loader *)
(* ================================================================== *)

Lemma fillna0_notna (x : fval) : isna (fillna0 x) = false.
Proof. now destruct x. Qed.

(** X1.  Loading keeps the rows and their order.  A loaded row has its
    columns as they were, except that a missing cell of the three area
    columns has become 0 - so no area is missing any more - and that it
    carries the month key of its contract date (no key when the date is
    missing). *)
Theorem load_data_cleans (rows : list Sale) :
  Forall2
    (fun r0 r =>
       unit_id r = unit_id r0 /\ project r = project r0
       /\ contract_date r = contract_date r0
       /\ contract_amount r = contract_amount r0
       /\ bedrooms r = bedrooms r0
       /\ latitude r = latitude r0 /\ longitude r = longitude r0
       /\ covered_area r
          = match covered_area r0 with NaN => Fin 0 | x => x end
       /\ covered_veranda r
          = match covered_veranda r0 with NaN => Fin 0 | x => x end
       /\ total_covered r
          = match total_covered r0 with NaN => Fin 0 | x => x end
       /\ year_month r
          = match contract_date r0 with
            | Some d => Some (strftime_Ym d)
            | None => None
            end)
    rows (load_data rows)
  /\ List.length (load_data rows) = List.length rows
  /\ forall r, In r (load_data rows) ->
       isna (covered_area r) = false
       /\ isna (covered_veranda r) = false
       /\ isna (total_covered r) = false.
Proof.
  unfold load_data. split; [|split].
  - induction rows as [|r0 rows IH]; simpl; constructor; [|exact IH].
    simpl. unfold fillna0.
    destruct (covered_area r0), (covered_veranda r0), (total_covered r0),
      (contract_date r0); simpl; repeat split; reflexivity.
  - apply length_map.
  - intros r Hr. apply in_map_iff in Hr as [r0 [<- _]]. simpl.
    rewrite !fillna0_notna. auto.
Qed.

Lemma string_compare_refl (s : string) : String.compare s s = Eq.
Proof. now apply String_as_OT.cmp_eq. Qed.

(** X2.  Two parsed dates get the same month key exactly when they
    have the same year and the same month, whatever their days. *)
Theorem year_month_key_identifies_month (d1 d2 : date) :
  parsed d1 -> parsed d2 ->
  (strftime_Ym d1 = strftime_Ym d2 <->
   year d1 = year d2 /\ month d1 = month d2).
Proof.
  intros H1 H2.
  apply parsed_bounds in H1 as [Hy1 Hm1], H2 as [Hy2 Hm2].
  pose proof (strftime_Ym_compare d1 d2 Hy1 Hy2 Hm1 Hm2) as C.
  split.
  - intros E. rewrite E, string_compare_refl in C. symmetry in C.
    unfold ym_compare in C.
    destruct (Z.compare_spec (year d1) (year d2)); try discriminate.
    destruct (Z.compare_spec (month d1) (month d2)); try discriminate. auto.
  - intros [Ey Em]. apply String.compare_eq_iff. rewrite C.
    unfold ym_compare. now rewrite Ey, Em, !Z.compare_refl.
Qed.

Lemma year_month_key_witness :
  parsed (mkDate 2024 1 10) /\ parsed (mkDate 2024 1 24)
  /\ strftime_Ym (mkDate 2024 1 10) = strftime_Ym (mkDate 2024 1 24).
Proof.
  assert (H1 : parsed (mkDate 2024 1 10)) by (unfold parsed; simpl; lia).
  assert (H2 : parsed (mkDate 2024 1 24)) by (unfold parsed; simpl; lia).
  split; [exact H1|]. split; [exact H2|].
  apply (proj2 (year_month_key_identifies_month _ _ H1 H2)).
  split; reflexivity.
Defined.

(* ================================================================== *)
(** ** Filters in sequence *)
(* ================================================================== *)

Lemma filter_comm {A : Type} (f g : A -> bool) (l : list A) :
  filter f (filter g l) = filter g (filter f l).
Proof.
  induction l as [|x l IH]; simpl; [reflexivity|].
  destruct (g x) eqn:Eg; destruct (f x) eqn:Ef; simpl;
    rewrite ?Eg, ?Ef, IH; reflexivity.
Qed.

Lemma filter_filter_impl {A : Type} (f g : A -> bool) (l : list A) :
  (forall x, f x = true -> g x = true) ->
  filter f (filter g l) = filter f l.
Proof.
  intros H. induction l as [|x l IH]; simpl; [reflexivity|].
  destruct (g x) eqn:Eg; simpl.
  - now rewrite IH.
  - destruct (f x) eqn:Ef; [|exact IH]. apply H in Ef. congruence.
Qed.

(** X3.  Two filters applied in sequence commute, and filtering the
    concatenation of two frames is concatenating their filtered views:
    the mask of a row does not depend on the other rows. *)
Theorem filters_commute (data data' : list Sale) (sel1 sel2 : Selection) :
  filtered_data (filtered_data data sel1) sel2
  = filtered_data (filtered_data data sel2) sel1
  /\ filtered_data (data ++ data') sel1
     = filtered_data data sel1 ++ filtered_data data' sel1.
Proof.
  rewrite !filtered_data_filter. split; [apply filter_comm | apply filter_app].
Qed.

Lemma refines_satisfies (sel' sel : Selection) (r : Sale) :
  refines sel' sel -> satisfies sel' r = true -> satisfies sel r = true.
Proof.
  intros (Hs & He & Hlo & Hhi & Hp & Hb). rewrite !satisfies_spec.
  intros ([d (Hd & H1 & H2)] & H3 & H4 & H5 & H6).
  split; [|split; [|split; [|split]]].
  - exists d. split; [exact Hd|]. split; eapply date_leb_trans; eauto.
  - eapply fle_trans; [apply fle_of_Z; exact Hlo | exact H3].
  - eapply fle_trans; [exact H4 | apply fle_of_Z; exact Hhi].
  - intros Hn. destruct Hp as [Hp|Hp]; [contradiction|].
    rewrite <- Hp. apply H5. congruence.
  - intros Hn. destruct Hb as [Hb|Hb]; [contradiction|].
    rewrite <- Hb. apply H6. congruence.
Qed.

(** X4.  Filtering a view again with a selection that refines the one
    that made it gives what that selection gives on the whole frame,
    and that is a part of the view. *)
Theorem refining_a_view (data : list Sale) (sel' sel : Selection) :
  refines sel' sel ->
  filtered_data (filtered_data data sel) sel' = filtered_data data sel'
  /\ forall r, In r (filtered_data data sel') -> In r (filtered_data data sel).
Proof.
  intros H. rewrite !filtered_data_filter. split.
  - apply filter_filter_impl. intros r. now apply refines_satisfies.
  - intros r. rewrite !filter_In. intros [Hr Hs]. split; [exact Hr|].
    eapply refines_satisfies; eauto.
Qed.

Lemma refining_a_view_witness :
  refines january_2024 (year_2024 (0, 1000000)%Z)
  /\ filtered_data
       (filtered_data (load_data scenario_rows) (year_2024 (0, 1000000)%Z))
       january_2024
     = filtered_data (load_data scenario_rows) january_2024.
Proof.
  assert (H : refines january_2024 (year_2024 (0, 1000000)%Z)).
  { unfold refines. simpl. repeat split; try reflexivity; try lia; auto. }
  split; [exact H|]. exact (proj1 (refining_a_view _ _ _ H)).
Defined.

Lemma crossed_dates_satisfy_nothing (sel : Selection) (r : Sale) :
  Date.leb (start_date sel) (end_date sel) = false -> satisfies sel r = false.
Proof.
  intros H. destruct (satisfies sel r) eqn:E; [|reflexivity].
  apply satisfies_spec in E as ([d (_ & H1 & H2)] & _).
  rewrite (date_leb_trans _ _ _ H1 H2) in H. discriminate.
Qed.

(** X5.  When the end date is before the start date the view is empty,
    whatever the frame, and the three tabs show the notice. *)
Theorem crossed_dates_empty_view
        (str_to_numeric : string -> fval) (np_sqrt : fval -> fval)
        (fmt_euro : fval -> string) (data : list Sale) (sel : Selection) :
  Date.leb (start_date sel) (end_date sel) = false ->
  filtered_data data sel = []
  /\ tab1 (filtered_data data sel) = StWarning NO_DATA
  /\ tab2 str_to_numeric (filtered_data data sel) = StWarning NO_DATA
  /\ tab3 np_sqrt fmt_euro (filtered_data data sel) = StWarning NO_DATA.
Proof.
  intros H.
  assert (E : filtered_data data sel = []).
  { rewrite filtered_data_filter. apply filter_none.
    intros r _. now apply crossed_dates_satisfy_nothing. }
  rewrite E. repeat split; reflexivity.
Qed.

Lemma crossed_dates_witness :
  Date.leb (start_date crossed_dates) (end_date crossed_dates) = false
  /\ filtered_data (load_data scenario_rows) crossed_dates = [].
Proof.
  assert (H : Date.leb (start_date crossed_dates) (end_date crossed_dates)
              = false) by reflexivity.
  split; [exact H|].
  exact (proj1 (crossed_dates_empty_view decimal_to_numeric floor_sqrt
                  no_format (load_data scenario_rows) crossed_dates H)).
Defined.

(* ================================================================== *)
(** ** Bounds offered by the sidebar *)
(* ================================================================== *)

Section FoldExtreme.
Context {A : Type}.
Variable leb : A -> A -> bool.
Variable P : A -> Prop.
Hypothesis leb_refl : forall x, P x -> leb x x = true.
Hypothesis leb_trans :
  forall x y z, leb x y = true -> leb y z = true -> leb x z = true.
Hypothesis leb_total :
  forall x y, P x -> P y -> leb x y = false -> leb y x = true.

Lemma fold_min_spec (t : list A) (d : A) :
  P d -> Forall P t ->
  let m := fold_left (fun a b => if leb a b then a else b) t d in
  P m /\ (m = d \/ In m t) /\ leb m d = true
  /\ forall x, In x t -> leb m x = true.
Proof.
  revert d. induction t as [|y t IH]; simpl; intros d Hd Ht.
  - split; [exact Hd|]. split; [auto|]. split; [now apply leb_refl|].
    intros x [].
  - inversion Ht as [|? ? Hy Ht']; subst.
    destruct (leb d y) eqn:E.
    + destruct (IH d Hd Ht') as (Hp & Hm & Hle & Hall).
      split; [exact Hp|]. split; [|split].
      * destruct Hm; auto.
      * exact Hle.
      * intros x [<-|Hx]; [eapply leb_trans; eauto | auto].
    + destruct (IH y Hy Ht') as (Hp & Hm & Hle & Hall).
      split; [exact Hp|]. split; [|split].
      * destruct Hm; auto.
      * eapply leb_trans; [exact Hle|]. now apply leb_total.
      * intros x [<-|Hx]; auto.
Qed.

Lemma fold_max_spec (t : list A) (d : A) :
  P d -> Forall P t ->
  let m := fold_left (fun a b => if leb a b then b else a) t d in
  P m /\ (m = d \/ In m t) /\ leb d m = true
  /\ forall x, In x t -> leb x m = true.
Proof.
  revert d. induction t as [|y t IH]; simpl; intros d Hd Ht.
  - split; [exact Hd|]. split; [auto|]. split; [now apply leb_refl|].
    intros x [].
  - inversion Ht as [|? ? Hy Ht']; subst.
    destruct (leb d y) eqn:E.
    + destruct (IH y Hy Ht') as (Hp & Hm & Hle & Hall).
      split; [exact Hp|]. split; [|split].
      * destruct Hm; auto.
      * eapply leb_trans; eauto.
      * intros x [<-|Hx]; auto.
    + destruct (IH d Hd Ht') as (Hp & Hm & Hle & Hall).
      split; [exact Hp|]. split; [|split].
      * destruct Hm; auto.
      * exact Hle.
      * intros x [<-|Hx]; [|auto].
        eapply leb_trans; [|exact Hle]. now apply leb_total.
Qed.

End FoldExtreme.

Lemma fold_date_min2 (t : list date) (d : date) :
  (fold_left date_min2 t d = d \/ In (fold_left date_min2 t d) t)
  /\ Date.leb (fold_left date_min2 t d) d = true
  /\ forall x, In x t -> Date.leb (fold_left date_min2 t d) x = true.
Proof.
  refine (proj2 (fold_min_spec Date.leb (fun _ => True)
                   (fun x _ => date_leb_refl x) date_leb_trans
                   (fun x y _ _ => date_leb_total x y) t d I _)).
  apply Forall_forall. auto.
Qed.

Lemma fold_date_max2 (t : list date) (d : date) :
  (fold_left date_max2 t d = d \/ In (fold_left date_max2 t d) t)
  /\ Date.leb d (fold_left date_max2 t d) = true
  /\ forall x, In x t -> Date.leb x (fold_left date_max2 t d) = true.
Proof.
  refine (proj2 (fold_max_spec Date.leb (fun _ => True)
                   (fun x _ => date_leb_refl x) date_leb_trans
                   (fun x y _ _ => date_leb_total x y) t d I _)).
  apply Forall_forall. auto.
Qed.

Lemma present_dates_In (data : list Sale) (d : date) :
  In d (present_dates (map contract_date data)) <->
  exists r, In r data /\ contract_date r = Some d.
Proof.
  induction data as [|r data IH]; simpl.
  - split; [intros [] | intros [r [[] _]]].
  - destruct (contract_date r) as [d0|] eqn:E; simpl; rewrite IH.
    + split.
      * intros [<-|[r' [H1 H2]]]; [exists r; auto | exists r'; auto].
      * intros [r' [[<-|H1] H2]]; [left; congruence | right; exists r'; auto].
    + split.
      * intros [r' [H1 H2]]. exists r'. auto.
      * intros [r' [[<-|H1] H2]]; [congruence | exists r'; auto].
Qed.

Lemma min_date_spec (data : list Sale) (m : date) :
  min_date data = Some m ->
  (exists r, In r data /\ contract_date r = Some m)
  /\ forall r d, In r data -> contract_date r = Some d -> Date.leb m d = true.
Proof.
  unfold min_date. intros H.
  pose proof (present_dates_In data) as HIn.
  destruct (present_dates (map contract_date data)) as [|d0 t]; [discriminate|].
  injection H as <-.
  destruct (fold_date_min2 t d0) as (Hm & Hle & Hall).
  split.
  - apply HIn. simpl. destruct Hm as [->|Hm]; auto.
  - intros r d Hr Hd.
    assert (Hd' : In d (d0 :: t)) by (apply HIn; eauto).
    destruct Hd' as [<-|Hd']; [exact Hle | now apply Hall].
Qed.

Lemma max_date_spec (data : list Sale) (m : date) :
  max_date data = Some m ->
  (exists r, In r data /\ contract_date r = Some m)
  /\ forall r d, In r data -> contract_date r = Some d -> Date.leb d m = true.
Proof.
  unfold max_date. intros H.
  pose proof (present_dates_In data) as HIn.
  destruct (present_dates (map contract_date data)) as [|d0 t]; [discriminate|].
  injection H as <-.
  destruct (fold_date_max2 t d0) as (Hm & Hle & Hall).
  split.
  - apply HIn. simpl. destruct Hm as [->|Hm]; auto.
  - intros r d Hr Hd.
    assert (Hd' : In d (d0 :: t)) by (apply HIn; eauto).
    destruct Hd' as [<-|Hd']; [exact Hle | now apply Hall].
Qed.

(** X6.  The two dates that bound the date pickers are contract dates
    of the frame, every contract date of the frame lies between them,
    and they are missing exactly when no row has a date. *)
Theorem date_bounds_span_the_frame (data : list Sale) :
  (forall m, min_date data = Some m ->
      (exists r, In r data /\ contract_date r = Some m)
      /\ forall r d, In r data -> contract_date r = Some d ->
                     Date.leb m d = true)
  /\ (forall m, max_date data = Some m ->
         (exists r, In r data /\ contract_date r = Some m)
         /\ forall r d, In r data -> contract_date r = Some d ->
                        Date.leb d m = true)
  /\ (min_date data = None <-> forall r, In r data -> contract_date r = None)
  /\ (max_date data = None <-> min_date data = None).
Proof.
  split; [apply min_date_spec|]. split; [apply max_date_spec|].
  pose proof (present_dates_In data) as HIn.
  unfold min_date, max_date.
  destruct (present_dates (map contract_date data)) as [|d0 t].
  - split; [|tauto]. split; [|reflexivity]. intros _ r Hr.
    destruct (contract_date r) as [d|] eqn:E; [|reflexivity].
    exfalso. apply (proj2 (HIn d)). eauto.
  - split; [|split; discriminate]. split; [discriminate|].
    intros H. exfalso.
    destruct (proj1 (HIn d0)) as [r [Hr Hd]]; [simpl; auto|].
    rewrite (H r Hr) in Hd. discriminate.
Qed.

Lemma fold_fmin2 (t : list fval) (d : fval) :
  notna d = true -> Forall (fun x => notna x = true) t ->
  notna (fold_left Pd.fmin2 t d) = true
  /\ (fold_left Pd.fmin2 t d = d \/ In (fold_left Pd.fmin2 t d) t)
  /\ fle (fold_left Pd.fmin2 t d) d = true
  /\ forall x, In x t -> fle (fold_left Pd.fmin2 t d) x = true.
Proof.
  exact (fold_min_spec fle (fun x => notna x = true) fle_refl fle_trans
           fle_total t d).
Qed.

Lemma fold_fmax2 (t : list fval) (d : fval) :
  notna d = true -> Forall (fun x => notna x = true) t ->
  notna (fold_left Pd.fmax2 t d) = true
  /\ (fold_left Pd.fmax2 t d = d \/ In (fold_left Pd.fmax2 t d) t)
  /\ fle d (fold_left Pd.fmax2 t d) = true
  /\ forall x, In x t -> fle x (fold_left Pd.fmax2 t d) = true.
Proof.
  exact (fold_max_spec fle (fun x => notna x = true) fle_refl fle_trans
           fle_total t d).
Qed.

Lemma dropna_cons (s : list fval) (x : fval) (t : list fval) :
  Pd.dropna s = x :: t ->
  notna x = true /\ Forall (fun v => notna v = true) t
  /\ forall v, In v s -> notna v = true -> v = x \/ In v t.
Proof.
  unfold Pd.dropna. intros E.
  assert (H : forall v, In v (x :: t) <-> In v s /\ notna v = true).
  { intro v. rewrite <- E. apply filter_In. }
  split; [apply H; simpl; auto|]. split.
  - apply Forall_forall. intros v Hv. apply H. simpl. auto.
  - intros v Hv Hn. destruct (proj2 (H v) (conj Hv Hn)); auto.
Qed.

(** [Series.min()] is a cell of the Series, below all the cells that
    are not missing. *)
Lemma pd_min_spec (s : list fval) :
  notna (Pd.min s) = true ->
  In (Pd.min s) s
  /\ forall v, In v s -> notna v = true -> fle (Pd.min s) v = true.
Proof.
  unfold Pd.min. destruct (Pd.dropna s) as [|x t] eqn:E; [discriminate|].
  intros _. destruct (dropna_cons _ _ _ E) as (Hx & Ht & Hs).
  destruct (fold_fmin2 t x Hx Ht) as (_ & Hm & Hle & Hall).
  assert (Hin : forall v, In v (x :: t) -> In v s).
  { intros v Hv. rewrite <- E in Hv. now apply filter_In in Hv. }
  split.
  - apply Hin. simpl. destruct Hm as [->|Hm]; auto.
  - intros v Hv Hn. destruct (Hs v Hv Hn) as [->|Hv']; auto.
Qed.

Lemma pd_max_spec (s : list fval) :
  notna (Pd.max s) = true ->
  In (Pd.max s) s
  /\ forall v, In v s -> notna v = true -> fle v (Pd.max s) = true.
Proof.
  unfold Pd.max. destruct (Pd.dropna s) as [|x t] eqn:E; [discriminate|].
  intros _. destruct (dropna_cons _ _ _ E) as (Hx & Ht & Hs).
  destruct (fold_fmax2 t x Hx Ht) as (_ & Hm & Hle & Hall).
  assert (Hin : forall v, In v (x :: t) -> In v s).
  { intros v Hv. rewrite <- E in Hv. now apply filter_In in Hv. }
  split.
  - apply Hin. simpl. destruct Hm as [->|Hm]; auto.
  - intros v Hv Hn. destruct (Hs v Hv Hn) as [->|Hv']; auto.
Qed.

Lemma py_int_Some (x : fval) (z : Z) :
  py_int x = Some z -> exists q, x = Fin q /\ z = Qtrunc q.
Proof.
  destruct x; simpl; try discriminate. intros H. injection H as <-. eauto.
Qed.

(** X7.  When the slider can be built, its lower bound is at most its
    upper bound, both bounds are truncations of amounts of the frame,
    and no amount of the frame is infinite. *)
Theorem price_slider_bounds_ordered (data : list Sale) (lo hi : Z) :
  default_price_range data = Some (lo, hi) ->
  (lo <= hi)%Z
  /\ (exists r, In r data /\ py_int (contract_amount r) = Some lo)
  /\ (exists r, In r data /\ py_int (contract_amount r) = Some hi)
  /\ forall r, In r data -> isinf (contract_amount r) = false.
Proof.
  intros H. apply default_price_range_bounds in H as [Hlo Hhi].
  destruct (py_int_Some _ _ Hlo) as [a [Ea ->]].
  destruct (py_int_Some _ _ Hhi) as [b [Eb ->]].
  destruct (pd_min_spec (map contract_amount data)) as [Hin_a Hmin];
    [now rewrite Ea|].
  destruct (pd_max_spec (map contract_amount data)) as [Hin_b Hmax];
    [now rewrite Eb|].
  rewrite Ea in Hin_a, Hmin. rewrite Eb in Hin_b, Hmax.
  split; [|split; [|split]].
  - apply Qtrunc_mono. apply Qle_bool_iff.
    apply (Hmin (Fin b) Hin_b eq_refl).
  - apply in_map_iff in Hin_a as [r [E Hr]]. exists r. split; [exact Hr|].
    now rewrite E.
  - apply in_map_iff in Hin_b as [r [E Hr]]. exists r. split; [exact Hr|].
    now rewrite E.
  - intros r Hr.
    assert (Hv : In (contract_amount r) (map contract_amount data))
      by now apply in_map.
    destruct (contract_amount r) eqn:E; try reflexivity.
    + specialize (Hmax _ Hv eq_refl). discriminate.
    + specialize (Hmin _ Hv eq_refl). discriminate.
Qed.

Lemma price_slider_bounds_witness :
  default_price_range (load_data cents_rows) = Some (100000, 200000)%Z
  /\ (100000 <= 200000)%Z.
Proof.
  assert (H : default_price_range (load_data cents_rows)
              = Some (100000, 200000)%Z) by reflexivity.
  split; [exact H|].
  exact (proj1 (price_slider_bounds_ordered _ _ _ H)).
Defined.

(* ================================================================== *)
(** ** The view of an untouched sidebar *)
(* ================================================================== *)

Lemma filter_all {A : Type} (f : A -> bool) (l : list A) :
  (forall x, In x l -> f x = true) -> filter f l = l.
Proof.
  induction l as [|x l IH]; simpl; intros H; [reflexivity|].
  rewrite (H x) by auto. f_equal. apply IH. auto.
Qed.

Lemma default_selection_fields (data : list Sale) (sel : Selection) :
  default_selection data = Some sel ->
  min_date data = Some (start_date sel)
  /\ max_date data = Some (end_date sel)
  /\ default_price_range data = Some (price_range sel)
  /\ selected_project sel = ALL
  /\ selected_bedrooms sel = PStr ALL.
Proof.
  unfold default_selection.
  destruct (min_date data), (max_date data), (default_price_range data);
    try discriminate.
  intros H. injection H as <-. simpl. auto.
Qed.

(** What the default selection asks of a row: a date, and an amount
    between the truncated minimum and the truncated maximum. *)
Lemma default_selection_satisfies (data : list Sale) (sel : Selection) (r : Sale) :
  default_selection data = Some sel ->
  In r data ->
  (satisfies sel r = true <->
   contract_date r <> None
   /\ fle (of_Z (fst (price_range sel))) (contract_amount r) = true
   /\ fle (contract_amount r) (of_Z (snd (price_range sel))) = true).
Proof.
  intros Hd Hr.
  destruct (default_selection_fields _ _ Hd) as (Hmin & Hmax & _ & Hp & Hb).
  rewrite satisfies_spec. split.
  - intros ([d [Ed _]] & H1 & H2 & _). repeat split; auto. congruence.
  - intros (Hdate & H1 & H2).
    destruct (contract_date r) as [d|] eqn:Ed; [|congruence].
    split; [|split; [exact H1|split; [exact H2|split; intros N; congruence]]].
    exists d. split; [reflexivity|]. split.
    + exact (proj2 (min_date_spec _ _ Hmin) r d Hr Ed).
    + exact (proj2 (max_date_spec _ _ Hmax) r d Hr Ed).
Qed.

Lemma integral_amount_in_default_range (data : list Sale) (lo hi z : Z) (r : Sale) :
  default_price_range data = Some (lo, hi) ->
  In r data ->
  feq (contract_amount r) (of_Z z) = true ->
  fle (of_Z lo) (contract_amount r) = true
  /\ fle (contract_amount r) (of_Z hi) = true.
Proof.
  intros H Hr Hz. apply default_price_range_bounds in H as [Hlo Hhi].
  destruct (py_int_Some _ _ Hlo) as [a [Ea ->]].
  destruct (py_int_Some _ _ Hhi) as [b [Eb ->]].
  destruct (pd_min_spec (map contract_amount data)) as [_ Hmin];
    [now rewrite Ea|].
  destruct (pd_max_spec (map contract_amount data)) as [_ Hmax];
    [now rewrite Eb|].
  rewrite Ea in Hmin. rewrite Eb in Hmax.
  assert (Hv : In (contract_amount r) (map contract_amount data))
    by now apply in_map.
  destruct (contract_amount r) as [q| | |]; simpl in Hz; try discriminate.
  apply Qeq_bool_iff in Hz.
  specialize (Hmin _ Hv eq_refl). specialize (Hmax _ Hv eq_refl).
  simpl in Hmin, Hmax. apply Qle_bool_iff in Hmin, Hmax.
  assert (Hq : Qtrunc q = z).
  { rewrite (Qtrunc_eq _ _ Hz). apply Qtrunc_inject_Z. }
  unfold of_Z. simpl. rewrite !Qle_bool_iff, Hz, <- !Zle_Qle, <- Hq.
  split; now apply Qtrunc_mono.
Qed.

(** X8.  With an untouched sidebar, a row that has a contract date and
    a whole amount is in the view; a frame in which every row is so is
    shown whole. *)
Theorem untouched_sidebar_keeps_whole_amounts (data : list Sale) (sel : Selection) :
  default_selection data = Some sel ->
  (forall r z, In r data -> contract_date r <> None ->
               feq (contract_amount r) (of_Z z) = true ->
               In r (filtered_data data sel))
  /\ ((forall r, In r data ->
         contract_date r <> None
         /\ exists z, feq (contract_amount r) (of_Z z) = true) ->
      filtered_data data sel = data).
Proof.
  intros Hd.
  assert (K : forall r z, In r data -> contract_date r <> None ->
                feq (contract_amount r) (of_Z z) = true ->
                satisfies sel r = true).
  { intros r z Hr Hdate Hz.
    apply (default_selection_satisfies _ _ _ Hd Hr).
    destruct (default_selection_fields _ _ Hd) as (_ & _ & Hp & _).
    destruct (price_range sel) as [lo hi]. simpl.
    split; [exact Hdate|].
    exact (integral_amount_in_default_range _ _ _ _ _ Hp Hr Hz). }
  split.
  - intros r z Hr Hdate Hz. rewrite filtered_data_filter, filter_In.
    split; [exact Hr|]. eapply K; eauto.
  - intros Hall. rewrite filtered_data_filter. apply filter_all.
    intros r Hr. destruct (Hall r Hr) as [Hdate [z Hz]]. eapply K; eauto.
Qed.

Lemma untouched_sidebar_witness :
  default_selection (load_data scenario_rows)
  = Some {| start_date := mkDate 2024 1 10; end_date := mkDate 2024 2 5;
            selected_project := ALL; selected_bedrooms := PStr ALL;
            price_range := (100000, 200000)%Z |}
  /\ filtered_data (load_data scenario_rows)
       {| start_date := mkDate 2024 1 10; end_date := mkDate 2024 2 5;
          selected_project := ALL; selected_bedrooms := PStr ALL;
          price_range := (100000, 200000)%Z |}
     = load_data scenario_rows.
Proof.
  assert (Hd : default_selection (load_data scenario_rows)
               = Some {| start_date := mkDate 2024 1 10;
                         end_date := mkDate 2024 2 5;
                         selected_project := ALL;
                         selected_bedrooms := PStr ALL;
                         price_range := (100000, 200000)%Z |})
    by reflexivity.
  split; [exact Hd|].
  apply (proj2 (untouched_sidebar_keeps_whole_amounts _ _ Hd)).
  intros r Hr. simpl in Hr.
  destruct Hr as [<-|[<-|[<-|[]]]]; (split; [discriminate|]).
  - exists 100000%Z. reflexivity.
  - exists 200000%Z. reflexivity.
  - exists 150000%Z. reflexivity.
Defined.

(** X9.  With an untouched sidebar on a frame without negative amounts,
    the view is made of the rows that have a contract date and an
    amount at most the truncated maximum: the lower bound of the price
    range removes nothing. *)
Theorem untouched_sidebar_view (data : list Sale) (sel : Selection) :
  default_selection data = Some sel ->
  (forall r, In r data ->
     isna (contract_amount r) = true \/ fle (Fin 0) (contract_amount r) = true) ->
  forall r, In r (filtered_data data sel) <->
            In r data /\ contract_date r <> None
            /\ fle (contract_amount r) (of_Z (snd (price_range sel))) = true.
Proof.
  intros Hd Hpos r. rewrite filtered_data_filter, filter_In.
  split.
  - intros [Hr Hs]. apply (default_selection_satisfies _ _ _ Hd Hr) in Hs.
    tauto.
  - intros (Hr & Hdate & Hhi). split; [exact Hr|].
    apply (default_selection_satisfies _ _ _ Hd Hr).
    split; [exact Hdate|]. split; [|exact Hhi].
    destruct (default_selection_fields _ _ Hd) as (_ & _ & Hp & _).
    destruct (price_range sel) as [lo hi]. cbn [fst snd] in *.
    apply default_price_range_bounds in Hp as [Hlo _].
    destruct (py_int_Some _ _ Hlo) as [a [Ea ->]].
    destruct (pd_min_spec (map contract_amount data)) as [Hin Hmin];
      [now rewrite Ea|].
    rewrite Ea in Hin, Hmin.
    assert (Hn : notna (contract_amount r) = true).
    { destruct (contract_amount r); try reflexivity. discriminate. }
    apply fle_trans with (Fin a).
    + apply in_map_iff in Hin as [r0 [E0 Hr0]].
      destruct (Hpos r0 Hr0) as [H0|H0]; rewrite E0 in H0; [discriminate|].
      simpl in H0. apply Qle_bool_iff in H0.
      unfold of_Z. simpl. apply Qle_bool_iff.
      rewrite (Qtrunc_nonneg a H0). apply Qfloor_le.
    + apply Hmin; [now apply in_map | exact Hn].
Qed.

Lemma untouched_sidebar_view_witness :
  default_selection (load_data cents_rows)
  = Some {| start_date := mkDate 2024 1 10; end_date := mkDate 2024 1 24;
            selected_project := ALL; selected_bedrooms := PStr ALL;
            price_range := (100000, 200000)%Z |}
  /\ ~ In (clean dearest_row)
          (filtered_data (load_data cents_rows)
             {| start_date := mkDate 2024 1 10; end_date := mkDate 2024 1 24;
                selected_project := ALL; selected_bedrooms := PStr ALL;
                price_range := (100000, 200000)%Z |}).
Proof.
  assert (Hd : default_selection (load_data cents_rows)
               = Some {| start_date := mkDate 2024 1 10;
                         end_date := mkDate 2024 1 24;
                         selected_project := ALL;
                         selected_bedrooms := PStr ALL;
                         price_range := (100000, 200000)%Z |})
    by reflexivity.
  split; [exact Hd|].
  assert (Hpos : forall r, In r (load_data cents_rows) ->
                   isna (contract_amount r) = true
                   \/ fle (Fin 0) (contract_amount r) = true).
  { intros r Hr. simpl in Hr. destruct Hr as [<-|[<-|[]]]; right; reflexivity. }
  intros Hin.
  apply (proj1 (untouched_sidebar_view _ _ Hd Hpos (clean dearest_row))) in Hin.
  destruct Hin as (_ & _ & H). vm_compute in H. discriminate.
Defined.

(* ================================================================== *)
(** ** What sort_values and unique return *)
(* ================================================================== *)

Section SortValuesOrder.
Context {A : Type}.
Variable leb : A -> A -> bool.
Hypothesis leb_total : forall a b, leb a b = false -> leb b a = true.

Lemma insert_sorted_Permutation (x : A) (l : list A) :
  Permutation (Pd.insert_sorted leb x l) (x :: l).
Proof.
  induction l as [|y l IH]; simpl; [apply Permutation_refl|].
  destruct (leb x y); [apply Permutation_refl|].
  eapply Permutation_trans; [apply perm_skip, IH | apply perm_swap].
Qed.

Lemma sort_values_Permutation (l : list A) :
  Permutation (Pd.sort_values leb l) l.
Proof.
  induction l as [|x l IH]; simpl; [constructor|].
  eapply Permutation_trans; [apply insert_sorted_Permutation|].
  now apply perm_skip.
Qed.

Lemma insert_sorted_Sorted (x : A) (l : list A) :
  Sorted (fun a b => leb a b = true) l ->
  Sorted (fun a b => leb a b = true) (Pd.insert_sorted leb x l).
Proof.
  induction l as [|y l IH]; simpl; intros S.
  - repeat constructor.
  - destruct (leb x y) eqn:E.
    + constructor; [exact S|]. now constructor.
    + inversion S as [|? ? S' Hd]; subst. constructor; [now apply IH|].
      destruct l as [|z l']; simpl.
      * constructor. now apply leb_total.
      * destruct (leb x z); constructor.
        -- now apply leb_total.
        -- now inversion Hd.
Qed.

Lemma sort_values_Sorted (l : list A) :
  Sorted (fun a b => leb a b = true) (Pd.sort_values leb l).
Proof.
  induction l as [|x l IH]; simpl; [constructor|].
  now apply insert_sorted_Sorted.
Qed.

End SortValuesOrder.

Lemma unique_fold (s acc : list string) :
  NoDup acc ->
  let u := fold_left
             (fun seen x =>
                if existsb (String.eqb x) seen then seen else seen ++ [x])
             s acc in
  NoDup u /\ forall x, In x u <-> In x acc \/ In x s.
Proof.
  revert acc. induction s as [|y s IH]; simpl; intros acc Hn.
  - split; [exact Hn | intros x; tauto].
  - destruct (existsb (String.eqb y) acc) eqn:E.
    + destruct (IH acc Hn) as [H1 H2]. split; [exact H1|].
      intros x. rewrite H2. apply existsb_exists in E as [z [Hz Ez]].
      apply String.eqb_eq in Ez. subst z. intuition congruence.
    + assert (Hy : ~ In y acc).
      { intros Hy. assert (C : existsb (String.eqb y) acc = true).
        { apply existsb_exists. exists y. split; [exact Hy|apply String.eqb_refl]. }
        congruence. }
      destruct (IH (acc ++ [y])) as [H1 H2].
      { apply NoDup_app; [exact Hn | repeat constructor; auto |].
        intros a Ha [<-|[]]. contradiction. }
      split; [exact H1|]. intros x. rewrite H2, in_app_iff. simpl.
      intuition congruence.
Qed.

Lemma unique_spec (s : list string) :
  NoDup (unique s) /\ forall x, In x (unique s) <-> In x s.
Proof.
  destruct (unique_fold s [] (NoDup_nil _)) as [H1 H2].
  split; [exact H1|]. intros x. unfold unique. rewrite H2. simpl. tauto.
Qed.

Lemma string_leb_total (a b : string) :
  String.leb a b = false -> String.leb b a = true.
Proof. intros H. destruct (String.leb_total a b); congruence. Qed.

Lemma string_leb_ltb (a b : string) :
  String.leb a b = true -> a <> b -> String.ltb a b = true.
Proof.
  unfold String.leb, String.ltb. destruct (String.compare a b) eqn:E;
    try congruence. intros _ N. apply String.compare_eq_iff in E. contradiction.
Qed.

Lemma string_leb_trans (a b c : string) :
  String.leb a b = true -> String.leb b c = true -> String.leb a c = true.
Proof.
  intros H1 H2.
  destruct (string_dec a b) as [->|N1]; [exact H2|].
  destruct (string_dec b c) as [<-|N2]; [exact H1|].
  apply string_ltb_leb. eapply string_ltb_trans; apply string_leb_ltb; eauto.
Qed.

Lemma sorted_nodup_strict (l : list string) :
  Sorted (fun a b => String.leb a b = true) l -> NoDup l ->
  StronglySorted (fun a b => String.ltb a b = true) l.
Proof.
  intros S N. apply Sorted_StronglySorted in S.
  2:{ intros a b c. apply string_leb_trans. }
  induction S as [|x l S IH F]; [constructor|].
  inversion N as [|? ? Hx N']; subst. constructor; [auto|].
  rewrite Forall_forall in *. intros y Hy.
  apply string_leb_ltb; [auto|]. intros ->. contradiction.
Qed.

(** X10.  The project select box offers ["All"] and then every project
    label of the frame, once each, in ascending order. *)
Theorem project_options_listed_once (data : list Sale) :
  exists labels,
    project_options data = ALL :: labels
    /\ StronglySorted (fun a b => String.ltb a b = true) labels
    /\ NoDup labels
    /\ forall p, In p labels <-> exists r, In r data /\ project r = p.
Proof.
  exists (py_sorted (unique (map project data))). split; [reflexivity|].
  destruct (unique_spec (map project data)) as [Hn Hin].
  pose proof (sort_values_Permutation String.leb (unique (map project data)))
    as HP.
  assert (Hn' : NoDup (py_sorted (unique (map project data)))).
  { eapply Permutation_NoDup; [apply Permutation_sym; exact HP | exact Hn]. }
  split; [|split; [exact Hn'|]].
  - apply sorted_nodup_strict; [|exact Hn'].
    apply sort_values_Sorted. apply string_leb_total.
  - intros p. unfold py_sorted. rewrite sort_values_In, Hin, in_map_iff.
    split; intros [r [H1 H2]]; exists r; auto.
Qed.

(* ================================================================== *)
(** ** Group-by keeps every keyed row once *)
(* ================================================================== *)

Section GroupByWeight.
Context {A K : Type}.
Variable key : A -> option K.
Variable eqb ltb : K -> K -> bool.
Variable w : A -> nat.

Lemma list_sum_snoc (l : list nat) (n : nat) :
  list_sum (l ++ [n]) = (list_sum l + n)%nat.
Proof. rewrite list_sum_app. simpl. lia. Qed.

Lemma insert_group_weight (k : K) (r : A) (gs : list (K * list A)) :
  list_sum (map (fun g => list_sum (map w (snd g)))
              (Pd.insert_group eqb ltb k r gs))
  = (list_sum (map (fun g => list_sum (map w (snd g))) gs) + w r)%nat.
Proof.
  induction gs as [|[k1 rs1] gs IH].
  - cbn. lia.
  - cbn [Pd.insert_group]. destruct (eqb k k1); [|destruct (ltb k k1)].
    + cbn [map snd]. rewrite map_app, list_sum_app. cbn. lia.
    + cbn. lia.
    + cbn [map snd]. change (list_sum (?x :: ?l)) with (x + list_sum l)%nat.
      rewrite IH. cbn. lia.
Qed.

(** The weights of the groups add up to the weight of the rows that
    have a key. *)
Lemma groupby_weight (df : list A) :
  list_sum (map (fun g => list_sum (map w (snd g)))
              (Pd.groupby key eqb ltb df))
  = list_sum (map (fun r => match key r with Some _ => w r | None => 0%nat end)
                df).
Proof.
  induction df as [|r df IH] using rev_ind; [reflexivity|].
  rewrite groupby_snoc, map_app, list_sum_app, <- IH.
  change (map ?f [r]) with [f r]. cbv beta.
  replace (list_sum [match key r with Some _ => w r | None => 0%nat end])
    with (match key r with Some _ => w r | None => 0%nat end)
    by (cbn; lia).
  unfold Pd.add_row. destruct (key r); [apply insert_group_weight | lia].
Qed.

End GroupByWeight.

Lemma count_as_sum (s : list fval) :
  Pd.count s = list_sum (map present s).
Proof.
  unfold Pd.count, Pd.dropna, present.
  induction s as [|x s IH]; simpl; [reflexivity|].
  destruct (notna x); simpl; now rewrite IH.
Qed.

Lemma count_opt_as_sum {A : Type} (s : list (option A)) :
  Pd.count_opt s
  = list_sum (map (fun c => match c with Some _ => 1 | None => 0 end) s)%nat.
Proof.
  unfold Pd.count_opt. induction s as [|[a|] s IH]; simpl; now rewrite ?IH.
Qed.

Lemma list_sum_insert_sorted {A : Type} (leb : A -> A -> bool) (f : A -> nat)
      (x : A) (l : list A) :
  list_sum (map f (Pd.insert_sorted leb x l)) = (f x + list_sum (map f l))%nat.
Proof.
  induction l as [|y l IH]; simpl; [reflexivity|].
  destruct (leb x y); simpl; [reflexivity|]. rewrite IH. lia.
Qed.

Lemma list_sum_sort_values {A : Type} (leb : A -> A -> bool) (f : A -> nat)
      (l : list A) :
  list_sum (map f (Pd.sort_values leb l)) = list_sum (map f l).
Proof.
  induction l as [|x l IH]; simpl; [reflexivity|].
  now rewrite list_sum_insert_sorted, IH.
Qed.

Lemma list_sum_map_ext_in {A : Type} (f g : A -> nat) (l : list A) :
  (forall x, In x l -> f x = g x) ->
  list_sum (map f l) = list_sum (map g l).
Proof.
  intros H. f_equal. now apply map_ext_in.
Qed.

(** The units of the groups of a frame, whatever the key column, add up
    to the rows that have a key and an amount. *)
Lemma group_units_total {K : Type} (key : Sale -> option K)
      (eqb ltb : K -> K -> bool) (df : list Sale) :
  list_sum (map (fun g => Pd.count (map contract_amount (snd g)))
              (Pd.groupby key eqb ltb df))
  = list_sum (map (fun r => match key r with
                            | Some _ => present (contract_amount r)
                            | None => 0%nat
                            end) df).
Proof.
  rewrite <- (groupby_weight key eqb ltb (fun r => present (contract_amount r))).
  apply list_sum_map_ext_in. intros g _.
  now rewrite count_as_sum, map_map.
Qed.

(* ================================================================== *)
(** ** Units add up *)
(* ================================================================== *)

Lemma count_all_present (df : list Sale) :
  (forall r, In r df -> notna (contract_amount r) = true) ->
  Pd.count (map contract_amount df) = List.length df.
Proof.
  intros H. unfold Pd.count, Pd.dropna. rewrite filter_all, length_map; auto.
  intros v Hv. apply in_map_iff in Hv as [r [<- Hr]]. auto.
Qed.

Lemma keyed_units_total {K : Type} (key : Sale -> option K)
      (eqb ltb : K -> K -> bool) (df : list Sale) :
  (forall r, In r df -> key r <> None) ->
  list_sum (map (fun g => Pd.count (map contract_amount (snd g)))
              (Pd.groupby key eqb ltb df))
  = Pd.count (map contract_amount df).
Proof.
  intros H. rewrite group_units_total, count_as_sum, map_map.
  apply list_sum_map_ext_in. intros r Hr.
  destruct (key r) eqn:E; [reflexivity|]. now apply H in Hr.
Qed.

Lemma bedroom_data_keyed (str_to_numeric : string -> fval)
      (view : list Sale) (r : Sale) :
  In r (bedroom_data str_to_numeric view) -> bedrooms r <> None.
Proof.
  rewrite bedroom_data_filter, filter_In. intros [_ H] E.
  rewrite E in H. discriminate.
Qed.

(** X11.  Over a filtered view, the units sold of the project rollup
    add up to the number of rows of the view, those of the bedroom
    rollup to the number of rows whose bedrooms read as a number, and
    those of the geographic rollup to the number of rows that have both
    coordinates: every such row is counted once. *)
Theorem units_sold_add_up
        (str_to_numeric : string -> fval) (np_sqrt : fval -> fval)
        (fmt_euro : fval -> string) (data : list Sale) (sel : Selection) :
  let view := filtered_data data sel in
  list_sum (map units_sold (project_sales view)) = List.length view
  /\ list_sum (map units_sold
                 (bedroom_sales (bedroom_data str_to_numeric view)))
     = List.length (bedroom_data str_to_numeric view)
  /\ list_sum (map l_units_sold
                 (project_locations np_sqrt fmt_euro (map_data view)))
     = List.length (map_data view).
Proof.
  intros view.
  assert (Hna : forall x, In x view -> notna (contract_amount x) = true).
  { intros x. apply filtered_amount_notna. }
  split; [|split].
  - unfold project_sales. rewrite list_sum_sort_values, map_map.
    cbn [units_sold agg_sales].
    rewrite (keyed_units_total project_key) by discriminate.
    now apply count_all_present.
  - unfold bedroom_sales. rewrite map_map. cbn [units_sold agg_sales].
    rewrite (keyed_units_total bedrooms)
      by (intros r; apply bedroom_data_keyed).
    apply count_all_present. intros r Hr. apply Hna.
    eapply bedroom_data_incl; eauto.
  - unfold project_locations. rewrite map_map. cbn [l_units_sold agg_location].
    rewrite (keyed_units_total project_key) by discriminate.
    apply count_all_present. intros r Hr. apply Hna. now apply map_data_incl.
Qed.

(** X12.  Over a filtered view of a loaded frame, the unit counts of
    the time buckets add up to the number of rows of the view that have
    a unit id, and there are no more buckets than rows. *)
Theorem bucket_counts_add_up (rows : list Sale) (sel : Selection) :
  let view := filtered_data (load_data rows) sel in
  list_sum (map m_unit_id (monthly_sales view))
  = Pd.count_opt (map unit_id view)
  /\ (List.length (monthly_sales view) <= List.length view)%nat.
Proof.
  intros view. rewrite monthly_sales_groupby.
  assert (Hk : forall r, In r view -> year_month r <> None).
  { intros r Hr. destruct (filtered_loaded_year_month _ _ _ Hr) as [d [_ E]].
    congruence. }
  split.
  - rewrite map_map. cbn [m_unit_id agg_month].
    rewrite count_opt_as_sum, map_map.
    rewrite <- (list_sum_map_ext_in
                  (fun r => match year_month r with
                            | Some _ => match unit_id r with
                                        | Some _ => 1
                                        | None => 0
                                        end
                            | None => 0
                            end)%nat).
    + rewrite <- (groupby_weight year_month String.eqb String.ltb).
      apply list_sum_map_ext_in. intros g _.
      now rewrite count_opt_as_sum, map_map.
    + intros r Hr. destruct (year_month r) eqn:E; [reflexivity|].
      now apply Hk in Hr.
  - rewrite length_map.
    pose proof (groupby_weight year_month String.eqb String.ltb
                  (fun _ => 1%nat) view) as W.
    pose proof (groupby_well_formed year_month String.eqb String.ltb view) as F.
    assert (L1 : (List.length (Pd.groupby year_month String.eqb String.ltb view)
                  <= list_sum (map (fun g => list_sum (map (fun _ => 1%nat) (snd g)))
                                (Pd.groupby year_month String.eqb String.ltb view)))%nat).
    { revert F. generalize (Pd.groupby year_month String.eqb String.ltb view).
      intros gs F. induction gs as [|[k rs] gs IH]; [cbn; lia|].
      cbn [map snd List.length].
      change (list_sum (?x :: ?l)) with (x + list_sum l)%nat.
      assert (Hrs : (1 <= list_sum (map (fun _ : Sale => 1%nat) rs))%nat).
      { destruct (F k rs (or_introl eq_refl)) as [[x [Hx _]] _].
        destruct rs; [contradiction | cbn; lia]. }
      assert (IH' : (List.length gs
                     <= list_sum (map (fun g : string * list Sale =>
                                         list_sum (map (fun _ => 1%nat) (snd g))) gs))%nat).
      { apply IH. intros k' rs' H'. apply F. now right. }
      lia. }
    assert (L2 : (list_sum (map (fun r => match year_month r with
                                          | Some _ => 1
                                          | None => 0
                                          end) view) <= List.length view)%nat).
    { clear. induction view as [|r v IH]; [cbn; lia|].
      cbn [map List.length].
      change (list_sum (?x :: ?l)) with (x + list_sum l)%nat.
      destruct (year_month r); lia. }
    lia.
Qed.

(* ================================================================== *)
(** ** What each tab shows *)
(* ================================================================== *)

Lemma groupby_nil_keys {A K : Type} (key : A -> option K)
      (eqb ltb : K -> K -> bool) (df : list A) :
  Pd.groupby key eqb ltb df = [] -> forall r, In r df -> key r = None.
Proof.
  intros E.
  pose proof (groupby_weight key eqb ltb (fun _ => 1%nat) df) as W.
  rewrite E in W. cbn [map list_sum fold_right] in W.
  clear E. induction df as [|x df IH]; intros r Hr; [contradiction|].
  cbn [map] in W. change (list_sum (?a :: ?l)) with (a + list_sum l)%nat in W.
  destruct Hr as [<-|Hr].
  - destruct (key x); [lia | reflexivity].
  - apply IH; [lia | exact Hr].
Qed.

Lemma sort_values_nil {A : Type} (leb : A -> A -> bool) (l : list A) :
  Pd.sort_values leb l = [] -> l = [].
Proof.
  destruct l as [|x l]; [reflexivity|]. intros E. exfalso.
  assert (H : In x (Pd.sort_values leb (x :: l)))
    by (apply sort_values_In; simpl; auto).
  rewrite E in H. contradiction.
Qed.

(** X13.  On a view that is not empty, the timeline tab draws the
    time-bucket rollup and the project tab the project rollup; the
    bedroom charts give way to a notice exactly when no row has
    bedrooms that read as a number, and the map gives way to a notice
    exactly when no row has both coordinates.  No chart is drawn from
    an empty table: the project, bedroom and geographic tables that are
    drawn have a row, and so has the time-bucket table when every row
    of the view has a month key. *)
Theorem tabs_draw_from_rows
        (str_to_numeric : string -> fval) (np_sqrt : fval -> fval)
        (fmt_euro : fval -> string) (view : list Sale) :
  view <> [] ->
  tab1 view = Charts (monthly_sales view)
  /\ ((forall r, In r view -> year_month r <> None) -> monthly_sales view <> [])
  /\ project_sales view <> []
  /\ ((forall r, In r view ->
         isna (to_numeric str_to_numeric (bedrooms r)) = true) ->
      tab2 str_to_numeric view
      = Charts (project_sales view, StInfo NO_BEDROOM_DATA))
  /\ ((exists r, In r view
                 /\ isna (to_numeric str_to_numeric (bedrooms r)) = false) ->
      tab2 str_to_numeric view
      = Charts (project_sales view,
                Charts (bedroom_sales (bedroom_data str_to_numeric view)))
      /\ bedroom_sales (bedroom_data str_to_numeric view) <> [])
  /\ ((forall r, In r view ->
         isna (latitude r) = true \/ isna (longitude r) = true) ->
      tab3 np_sqrt fmt_euro view = StInfo NO_LOCATION_DATA)
  /\ ((exists r, In r view /\ isna (latitude r) = false
                 /\ isna (longitude r) = false) ->
      tab3 np_sqrt fmt_euro view
      = Charts (all_locations np_sqrt fmt_euro (map_data view))
      /\ project_locations np_sqrt fmt_euro (map_data view) <> []).
Proof.
  intros Hne. destruct view as [|r0 view0] eqn:Ev; [contradiction|].
  rewrite <- Ev in *. clear Hne.
  assert (Hr0 : In r0 view) by (rewrite Ev; simpl; auto).
  assert (T1 : tab1 view = Charts (monthly_sales view)) by now rewrite Ev.
  assert (T2 : tab2 str_to_numeric view
               = Charts (project_sales view,
                         if negb (Pd.empty (bedroom_data str_to_numeric view))
                         then Charts (bedroom_sales
                                        (bedroom_data str_to_numeric view))
                         else StInfo NO_BEDROOM_DATA)) by now rewrite Ev.
  assert (T3 : tab3 np_sqrt fmt_euro view
               = if negb (Pd.empty (map_data view))
                 then Charts (all_locations np_sqrt fmt_euro (map_data view))
                 else StInfo NO_LOCATION_DATA) by now rewrite Ev.
  clear Ev.
  split; [exact T1|]. split; [|split; [|split; [|split; [|split]]]].
  - intros Hk E. rewrite monthly_sales_groupby in E.
    apply map_eq_nil in E.
    pose proof (groupby_nil_keys _ _ _ _ E r0 Hr0) as N. now apply Hk in N.
  - intros E. unfold project_sales in E. apply sort_values_nil, map_eq_nil in E.
    pose proof (groupby_nil_keys _ _ _ _ E r0 Hr0). discriminate.
  - intros Hall. rewrite T2. rewrite bedroom_data_filter, filter_none; [reflexivity|].
    intros r Hr. unfold notna. now rewrite Hall.
  - intros [r [Hr Hn]]. rewrite T2.
    assert (Hin : In r (bedroom_data str_to_numeric view)).
    { rewrite bedroom_data_filter, filter_In. unfold notna. now rewrite Hn. }
    split.
    + destruct (bedroom_data str_to_numeric view); [contradiction|reflexivity].
    + intros E. unfold bedroom_sales in E. apply map_eq_nil in E.
      pose proof (groupby_nil_keys _ _ _ _ E r Hin) as N.
      now apply bedroom_data_keyed in Hin.
  - intros Hall. rewrite T3. unfold map_data. rewrite filter_none; [reflexivity|].
    intros r Hr. unfold notna. destruct (Hall r Hr) as [-> | ->]; simpl;
      [reflexivity | apply andb_false_r].
  - intros [r (Hr & Hla & Hlo)]. rewrite T3.
    assert (Hin : In r (map_data view)) by (apply map_data_In; auto).
    split.
    + destruct (map_data view); [contradiction|reflexivity].
    + intros E. unfold project_locations in E. apply map_eq_nil in E.
      pose proof (groupby_nil_keys _ _ _ _ E r Hin). discriminate.
Qed.

Lemma tabs_draw_from_rows_witness :
  load_data located_rows <> []
  /\ tab3 floor_sqrt no_format (load_data located_rows)
     = Charts (all_locations floor_sqrt no_format
                 (map_data (load_data located_rows)))
  /\ project_sales (load_data located_rows) <> [].
Proof.
  assert (Hne : load_data located_rows <> []) by (vm_compute; discriminate).
  pose proof (tabs_draw_from_rows decimal_to_numeric floor_sqrt no_format
                (load_data located_rows) Hne)
    as (_ & _ & HP & _ & _ & _ & HL).
  split; [exact Hne|]. split; [|exact HP].
  apply HL. eexists. split; [simpl; left; reflexivity|]. split; reflexivity.
Defined.

(* ================================================================== *)
(** ** Order and keys of the project rollup *)
(* ================================================================== *)

Lemma total_sales_geb_total {K : Type} (a b : SalesRow K) :
  total_sales_geb a b = false -> total_sales_geb b a = true.
Proof.
  unfold total_sales_geb.
  destruct (total_sales a) eqn:Ea, (total_sales b) eqn:Eb; simpl;
    try reflexivity; try discriminate.
  intros H. apply Qle_bool_iff. destruct (Qlt_le_dec q q0) as [L|L].
  - now apply Qlt_le_weak.
  - apply Qle_bool_iff in L. congruence.
Qed.

Lemma strictly_sorted_NoDup (l : list string) :
  StronglySorted (fun a b => String.ltb a b = true) l -> NoDup l.
Proof.
  induction 1 as [|x l S IH F]; constructor; [|exact IH].
  intros Hx. rewrite Forall_forall in F. specialize (F x Hx).
  rewrite string_ltb_irrefl in F. discriminate.
Qed.

Lemma total_sales_geb_at_least {K : Type} (a b : SalesRow K) :
  total_sales_geb a b = true -> at_least (total_sales a) (total_sales b).
Proof.
  unfold total_sales_geb, at_least.
  destruct (total_sales a), (total_sales b); simpl;
    intros H; try exact I; try discriminate.
  now apply Qle_bool_iff.
Qed.

Lemma Sorted_impl {A : Type} (R R' : A -> A -> Prop) (l : list A) :
  (forall a b, R a b -> R' a b) -> Sorted R l -> Sorted R' l.
Proof.
  intros H. induction 1 as [|x l S IH Hd]; constructor; [exact IH|].
  destruct Hd; constructor; auto.
Qed.

(** X14.  The project rollup has exactly one row for each project of
    the view, computed from all the rows of that project, and its rows
    come by decreasing total sales: the total of each row is at least
    the total of the next, as numbers, a total that is NaN coming
    last. *)
Theorem project_rollup_order (view : list Sale) :
  Sorted (fun a b => at_least (total_sales a) (total_sales b))
    (project_sales view)
  /\ NoDup (map s_key (project_sales view))
  /\ (forall p, In p (map s_key (project_sales view)) <->
                exists r, In r view /\ project r = p)
  /\ forall row, In row (project_sales view) ->
       row = agg_sales (s_key row,
                        Pd.rows_of_key project_key String.eqb (s_key row) view).
Proof.
  destruct (groupby_string project_key view) as (S & M & C).
  pose proof (sort_values_Permutation total_sales_geb
                (map agg_sales
                   (Pd.groupby project_key String.eqb String.ltb view))) as HP.
  assert (Hkeys : Permutation (map s_key (project_sales view))
                    (map fst (Pd.groupby project_key String.eqb String.ltb view))).
  { unfold project_sales. eapply Permutation_trans.
    - apply Permutation_map. exact HP.
    - rewrite map_map. apply Permutation_refl. }
  split.
  { eapply Sorted_impl; [apply total_sales_geb_at_least|].
    apply sort_values_Sorted, total_sales_geb_total. }
  split; [|split].
  - eapply Permutation_NoDup; [apply Permutation_sym; exact Hkeys|].
    now apply strictly_sorted_NoDup.
  - intros p. split.
    + intros Hp. apply (Permutation_in _ Hkeys) in Hp.
      apply in_map_iff in Hp as [[k rs] [E Hin]]. simpl in E. subst k.
      destruct (groupby_well_formed project_key String.eqb String.ltb
                  view p rs Hin) as [[x [Hx Hk]] Hs].
      exists x. split; [auto|]. unfold project_key in Hk. congruence.
    + intros [r [Hr <-]].
      apply (Permutation_in _ (Permutation_sym Hkeys)).
      exact (C r (project r) Hr eq_refl).
  - intros row Hin. apply project_sales_In in Hin as [[k rs] [Hg ->]].
    destruct (M _ _ Hg) as [-> _]. reflexivity.
Qed.

(* ================================================================== *)
(** ** Map table, restrictions, and a slider that cannot be built *)
(* ================================================================== *)

(** X15.  The table of the map lists the projects of the located rows
    in ascending order of their labels, each once, and ends with the
    reference point. *)
Theorem map_table_order
        (np_sqrt : fval -> fval) (fmt_euro : fval -> string) (md : list Sale) :
  StronglySorted (fun a b => String.ltb (l_project a) (l_project b) = true)
    (project_locations np_sqrt fmt_euro md)
  /\ (forall p, In p (map l_project (project_locations np_sqrt fmt_euro md)) <->
                exists r, In r md /\ project r = p)
  /\ all_locations np_sqrt fmt_euro md
     = project_locations np_sqrt fmt_euro md ++ [custom_plot]
  /\ List.length (all_locations np_sqrt fmt_euro md)
     = S (List.length (project_locations np_sqrt fmt_euro md)).
Proof.
  destruct (groupby_string project_key md) as (S & M & C).
  split; [|split; [|split]].
  - unfold project_locations.
    apply (StronglySorted_map (agg_location np_sqrt fmt_euro)
             (fun a b => String.ltb (l_project a) (l_project b) = true)).
    apply StronglySorted_map in S.
    eapply StronglySorted_impl; [|exact S]. intros [k1 rs1] [k2 rs2]. auto.
  - intros p. unfold project_locations. rewrite map_map. cbn [l_project agg_location].
    split.
    + intros Hp. apply in_map_iff in Hp as [[k rs] [E Hin]]. simpl in E. subst k.
      destruct (groupby_well_formed project_key String.eqb String.ltb
                  md p rs Hin) as [[x [Hx Hk]] Hs].
      exists x. split; [auto|]. unfold project_key in Hk. congruence.
    + intros [r [Hr <-]]. exact (C r (project r) Hr eq_refl).
  - reflexivity.
  - unfold all_locations. rewrite length_app. simpl. lia.
Qed.

(** X16.  Restricting to the rows whose bedrooms read as a number, or
    to the rows that have both coordinates, commutes with filtering,
    and restricting twice is restricting once. *)
Theorem restrictions_commute_with_filter
        (str_to_numeric : string -> fval) (data : list Sale) (sel : Selection) :
  bedroom_data str_to_numeric (filtered_data data sel)
  = filtered_data (bedroom_data str_to_numeric data) sel
  /\ map_data (filtered_data data sel) = filtered_data (map_data data) sel
  /\ bedroom_data str_to_numeric (bedroom_data str_to_numeric data)
     = bedroom_data str_to_numeric data
  /\ map_data (map_data data) = map_data data.
Proof.
  rewrite !bedroom_data_filter, !filtered_data_filter. unfold map_data.
  repeat split; try apply filter_comm; apply filter_idem.
Qed.

Lemma fle_PInf_l (x : fval) : fle PInf x = true -> x = PInf.
Proof. destruct x; simpl; congruence. Qed.

Lemma fle_NInf_r (x : fval) : fle x NInf = true -> x = NInf.
Proof. destruct x; simpl; congruence. Qed.

Lemma dropna_nil (s : list fval) :
  Pd.dropna s = [] <-> forall v, In v s -> isna v = true.
Proof.
  unfold Pd.dropna. split.
  - intros E v Hv. destruct (isna v) eqn:Ev; [reflexivity|]. exfalso.
    assert (H : In v (filter notna s))
      by (apply filter_In; unfold notna; rewrite Ev; auto).
    rewrite E in H. contradiction.
  - intros H. apply filter_none. intros v Hv. unfold notna. now rewrite H.
Qed.

(** X17.  The price slider cannot be built ([int] raises) exactly when
    the frame has no contract amount at all - an empty frame among
    others - or has an infinite one. *)
Theorem price_slider_fails (data : list Sale) :
  default_price_range data = None <->
  (forall r, In r data -> isna (contract_amount r) = true)
  \/ exists r, In r data /\ isinf (contract_amount r) = true.
Proof.
  set (s := map contract_amount data).
  assert (Hs : forall v, In v s <-> exists r, In r data /\ contract_amount r = v).
  { intros v. unfold s. rewrite in_map_iff. split; intros [r [H1 H2]]; eauto. }
  split.
  - intros H.
    destruct (Pd.dropna s) as [|x t] eqn:E.
    { left. intros r Hr. apply (proj1 (dropna_nil s) E). apply Hs. eauto. }
    right.
    assert (Nmin : notna (Pd.min s) = true).
    { unfold Pd.min. rewrite E. destruct (dropna_cons _ _ _ E) as (Hx & Ht & _).
      apply (fold_fmin2 t x Hx Ht). }
    assert (Nmax : notna (Pd.max s) = true).
    { unfold Pd.max. rewrite E. destruct (dropna_cons _ _ _ E) as (Hx & Ht & _).
      apply (fold_fmax2 t x Hx Ht). }
    destruct (pd_min_spec s Nmin) as [Imin _].
    destruct (pd_max_spec s Nmax) as [Imax _].
    unfold default_price_range, min_price, max_price in H. fold s in H.
    apply Hs in Imin as [r1 [Hr1 Er1]]. apply Hs in Imax as [r2 [Hr2 Er2]].
    destruct (Pd.min s) eqn:Emin;
      [ | exists r1; rewrite Er1; split; [exact Hr1|reflexivity]
        | exists r1; rewrite Er1; split; [exact Hr1|reflexivity]
        | discriminate Nmin ].
    destruct (Pd.max s) eqn:Emax;
      [ discriminate H
      | exists r2; rewrite Er2; split; [exact Hr2|reflexivity]
      | exists r2; rewrite Er2; split; [exact Hr2|reflexivity]
      | discriminate Nmax ].
  - unfold default_price_range, min_price, max_price. fold s.
    intros [Hall|[r [Hr Hinf]]].
    + assert (E : Pd.dropna s = []).
      { apply dropna_nil. intros v Hv. apply Hs in Hv as [r [Hr <-]]. auto. }
      unfold Pd.min. rewrite E. reflexivity.
    + assert (Hv : In (contract_amount r) s) by (apply Hs; eauto).
      assert (E : exists x t, Pd.dropna s = x :: t).
      { destruct (Pd.dropna s) as [|x t] eqn:E; [|eauto]. exfalso.
        pose proof (proj1 (dropna_nil s) E _ Hv) as Hn.
        destruct (contract_amount r); discriminate. }
      destruct E as [x [t E]].
      assert (Nmin : notna (Pd.min s) = true).
      { unfold Pd.min. rewrite E. destruct (dropna_cons _ _ _ E) as (Hx & Ht & _).
        apply (fold_fmin2 t x Hx Ht). }
      assert (Nmax : notna (Pd.max s) = true).
      { unfold Pd.max. rewrite E. destruct (dropna_cons _ _ _ E) as (Hx & Ht & _).
        apply (fold_fmax2 t x Hx Ht). }
      destruct (pd_min_spec s Nmin) as [_ Hmin].
      destruct (pd_max_spec s Nmax) as [_ Hmax].
      destruct (contract_amount r) eqn:Er; try discriminate.
      * specialize (Hmax _ Hv eq_refl). apply fle_PInf_l in Hmax.
        rewrite Hmax. simpl. now destruct (py_int (Pd.min s)).
      * specialize (Hmin _ Hv eq_refl). apply fle_NInf_r in Hmin.
        rewrite Hmin. reflexivity.
Qed.
